(** * The spreadsheet index of [trust_me.py]

    A shallow embedding of [DatabaseManager]: the two tables [files] and
    [content_index], the change detector [needs_update], the per-file
    transaction of [index_file], the run [update_index] and the query
    [search].

    Python objects are modelled by the values the code can observe:
    - an exception is the text of [str(e)], and a computation that may raise
      lives in the error monad [result];
    - a [sqlite3] connection is the committed database together with the
      pending (uncommitted) copy of an open transaction;
    - the file system, [openpyxl], the clock and store failures are read from
      an environment record [env];
    - what the run leaves behind (error log, progress reports, workbook
      handles) is recorded in [world].

    A Rocq string stands for the UTF-8 encoding of a Python [str], one
    [ascii] per byte; lengths and substrings are those of the bytes.
    Console output ([print]) is not recorded. *)

From Stdlib Require Import String Ascii List ZArith Lia Bool DecimalString Sorted.
Import ListNotations.
Open Scope list_scope.
Open Scope string_scope.

(** ** Exceptions *)

Definition exn := string.

Inductive result (A : Type) : Type :=
| Ok (a : A)
| Raise (e : exn).
Arguments Ok {A} a.
Arguments Raise {A} e.

Definition bind {A B : Type} (c : result A) (k : A -> result B) : result B :=
  match c with
  | Ok a => k a
  | Raise e => Raise e
  end.

Notation "x <- c ;; k" := (bind c (fun x => k))
  (at level 61, c at next level, right associativity).

(** ** Strings *)

Fixpoint startswith (s pre : string) {struct pre} : bool :=
  match pre with
  | "" => true
  | String c pre' =>
      match s with
      | "" => false
      | String d s' => Ascii.eqb c d && startswith s' pre'
      end
  end.

Fixpoint rev_string (s acc : string) : string :=
  match s with
  | "" => acc
  | String c s' => rev_string s' (String c acc)
  end.

Definition endswith (s suf : string) : bool :=
  startswith (rev_string s "") (rev_string suf "").


Definition is_substring (q s : string) : Prop :=
  exists pre post, s = pre ++ q ++ post.

(** [os.path.basename] on POSIX: what follows the last slash. *)
Fixpoint basename_from (s acc : string) : string :=
  match s with
  | "" => acc
  | String c s' =>
      if Ascii.eqb c "/" then basename_from s' ""
      else basename_from s' (acc ++ String c "")
  end.

Definition basename (p : string) : string := basename_from p "".

(** [os.path.join(a, b)] on POSIX. *)
Definition path_join (a b : string) : string :=
  if startswith b "/" then b
  else if (String.eqb a "" || endswith a "/")%bool then a ++ b
  else a ++ "/" ++ b.

Definition str_of_int (z : Z) : string := NilZero.string_of_int (Z.to_int z).

Fixpoint zeros (n : nat) : string :=
  match n with
  | O => ""
  | S n' => String "0" (zeros n')
  end.

(** ["%0<w>d" % z] for a non-negative [z]. *)
Definition zero_pad (w : nat) (z : Z) : string :=
  let d := str_of_int z in
  zeros (w - String.length d) ++ d.

(** ** Timestamps *)

Record datetime := mk_datetime {
  year : Z; month : Z; day : Z;
  hour : Z; minute : Z; second : Z; microsecond : Z
}.

(** [d.isoformat(" ")], which is also [str(d)] and what the default [sqlite3]
    adapter stores for a [datetime] parameter. *)
Definition isoformat (d : datetime) : string :=
  zero_pad 4 (year d) ++ "-" ++ zero_pad 2 (month d) ++ "-" ++ zero_pad 2 (day d)
  ++ " " ++ zero_pad 2 (hour d) ++ ":" ++ zero_pad 2 (minute d) ++ ":"
  ++ zero_pad 2 (second d)
  ++ (if (microsecond d =? 0)%Z then "" else "." ++ zero_pad 6 (microsecond d)).

Fixpoint lex_ltb (a b : list Z) : bool :=
  match a, b with
  | x :: a', y :: b' => (x <? y)%Z || ((x =? y)%Z && lex_ltb a' b')
  | _, _ => false
  end.

Definition dt_fields (d : datetime) : list Z :=
  [year d; month d; day d; hour d; minute d; second d; microsecond d].

Definition dt_ltb (a b : datetime) : bool := lex_ltb (dt_fields a) (dt_fields b).

(** ** Python values

    The values a spreadsheet cell or a fetched column can hold.  A float is
    known by the two things the code asks of it: whether it is zero and what
    [str] prints. *)

Inductive pyval :=
| PyNone
| PyBool (b : bool)
| PyInt (z : Z)
| PyFloat (is_zero : bool) (repr : string)
| PyStr (s : string)
| PyDatetime (d : datetime).

(** [bool(v)], the test of [if cell.value:]. *)
Definition truthy (v : pyval) : bool :=
  match v with
  | PyNone => false
  | PyBool b => b
  | PyInt z => negb (z =? 0)%Z
  | PyFloat is_zero _ => negb is_zero
  | PyStr s => negb (String.eqb s "")
  | PyDatetime _ => true
  end.

Definition py_str (v : pyval) : string :=
  match v with
  | PyNone => "None"
  | PyBool true => "True"
  | PyBool false => "False"
  | PyInt z => str_of_int z
  | PyFloat _ repr => repr
  | PyStr s => s
  | PyDatetime d => isoformat d
  end.

Definition type_name (v : pyval) : string :=
  match v with
  | PyNone => "NoneType"
  | PyBool _ => "bool"
  | PyInt _ => "int"
  | PyFloat _ _ => "float"
  | PyStr _ => "str"
  | PyDatetime _ => "datetime.datetime"
  end.

(** [v < t] for a [datetime] [t]: only another [datetime] is comparable,
    any other left operand raises [TypeError]. *)
Definition lt_datetime (v : pyval) (t : datetime) : result bool :=
  match v with
  | PyDatetime d => Ok (dt_ltb d t)
  | _ => Raise ("'<' not supported between instances of '" ++ type_name v
                ++ "' and 'datetime.datetime'")
  end.

(** ** The store *)

(** What SQLite keeps in a column. *)
Inductive sqlval :=
| SqlNull
| SqlInteger (z : Z)
| SqlText (s : string).

(** Binding a [datetime] parameter goes through the default adapter. *)
Definition adapt_datetime (d : datetime) : sqlval := SqlText (isoformat d).

(** Fetching a column on a connection opened by [sqlite3.connect(db_path)]:
    [detect_types] is left at 0, so no converter runs and a [TIMESTAMP]
    column comes back as the text that was stored. *)
Definition fetch_value (v : sqlval) : pyval :=
  match v with
  | SqlNull => PyNone
  | SqlInteger z => PyInt z
  | SqlText s => PyStr s
  end.

Record file_row := mk_file {
  f_id : Z;
  f_path : string;
  f_last_modified : sqlval;
  f_last_indexed : sqlval
}.

Record content_row := mk_content {
  c_id : Z;
  c_file_id : Z;
  c_sheet_name : string;
  c_cell_coordinate : string;
  c_content : string
}.

(** Both tables in rowid order. *)
Record db := mk_db {
  files : list file_row;
  content_index : list content_row
}.

Definition empty_db : db := mk_db [] [].

(** [INTEGER PRIMARY KEY] without [AUTOINCREMENT]: a new row gets one more
    than the largest rowid in use, and 1 in an empty table. *)
Definition next_rowid (ids : list Z) : Z := (1 + fold_right Z.max 0 ids)%Z.

Definition has_path (p : string) (f : file_row) : bool := String.eqb (f_path f) p.

(** [DELETE FROM files WHERE file_path = ?] *)
Definition delete_file (p : string) (d : db) : db :=
  mk_db (filter (fun f => negb (has_path p f)) (files d)) (content_index d).

(** [DELETE FROM content_index WHERE file_id IN
       (SELECT id FROM files WHERE file_path = ?)] *)
Definition delete_content (p : string) (d : db) : db :=
  let ids := map f_id (filter (has_path p) (files d)) in
  mk_db (files d)
        (filter (fun c => negb (existsb (Z.eqb (c_file_id c)) ids)) (content_index d)).

(** [INSERT INTO files (file_path, last_modified, last_indexed) VALUES (?, ?, ?)]
    together with [cursor.lastrowid]; [file_path] is [UNIQUE]. *)
Definition insert_file (p : string) (modified indexed : sqlval) (d : db)
  : result (db * Z) :=
  if existsb (has_path p) (files d)
  then Raise "UNIQUE constraint failed: files.file_path"
  else
    let id := next_rowid (map f_id (files d)) in
    Ok (mk_db (files d ++ [mk_file id p modified indexed])%list (content_index d), id).

(** One tuple of [content_values]. *)
Record content_value := mk_value {
  v_file_id : Z;
  v_sheet_name : string;
  v_cell_coordinate : string;
  v_content : string
}.

Definition insert_content (v : content_value) (d : db) : db :=
  mk_db (files d)
        (content_index d ++
           [mk_content (next_rowid (map c_id (content_index d)))
                       (v_file_id v) (v_sheet_name v) (v_cell_coordinate v) (v_content v)])%list.

(** [cursor.executemany('INSERT INTO content_index ...', content_values)] *)
Definition executemany (vs : list content_value) (d : db) : db :=
  fold_left (fun d v => insert_content v d) vs d.

(** [SELECT last_modified FROM files WHERE file_path = ?] then [fetchone()]. *)
Definition select_last_modified (p : string) (d : db) : option pyval :=
  match filter (has_path p) (files d) with
  | [] => None
  | f :: _ => Some (fetch_value (f_last_modified f))
  end.

(** ** Connections *)

Record connection := mk_conn {
  committed : db;
  pending : option db
}.

Definition get_connection (d : db) : connection := mk_conn d None.

(** What a statement on this connection sees. *)
Definition view (c : connection) : db :=
  match pending c with
  | Some d => d
  | None => committed c
  end.

Definition begin_transaction (c : connection) : result connection :=
  match pending c with
  | Some _ => Raise "cannot start a transaction within a transaction"
  | None => Ok (mk_conn (committed c) (Some (committed c)))
  end.

(** A data-changing statement works on the pending copy (the module opens a
    transaction by itself when none is open). *)
Definition execute (stmt : db -> db) (c : connection) : result connection :=
  Ok (mk_conn (committed c) (Some (stmt (view c)))).

Definition execute_insert_file (p : string) (modified indexed : sqlval) (c : connection)
  : result (connection * Z) :=
  r <- insert_file p modified indexed (view c) ;;
  Ok (mk_conn (committed c) (Some (fst r)), snd r).

Definition commit (c : connection) : connection := mk_conn (view c) None.

Definition rollback (c : connection) : connection := mk_conn (committed c) None.

(** [ChangeDetector]: the stored value is compared as it was fetched. *)
Definition needs_update (c : connection) (file_path : string) (modified_time : datetime)
  : result bool :=
  match select_last_modified file_path (view c) with
  | None => Ok true
  | Some stored => lt_datetime stored modified_time
  end.

(** ** Workbooks *)

Record cell := mk_cell {
  coordinate : string;
  value : pyval
}.

(** A sheet of a workbook opened with [read_only=True] is parsed while it is
    iterated: [iter_rows] hands out [sheet_rows] one by one and, when
    [fails_at] is [Some (n, e)], raises [e] when asked for row number [n]. *)
Record worksheet := mk_sheet {
  title : string;
  sheet_rows : list (list cell);
  fails_at : option (nat * exn)
}.

Definition workbook := list worksheet.

Definition sheetnames (wb : workbook) : list string := map title wb.

(** [wb[sheet_name]] *)
Definition getitem (wb : workbook) (sheet_name : string) : result worksheet :=
  match find (fun s => String.eqb (title s) sheet_name) wb with
  | Some s => Ok s
  | None => Raise ("Worksheet " ++ sheet_name ++ " does not exist.")
  end.

(** The rows [iter_rows] yields before it stops or raises. *)
Definition rows_read (s : worksheet) : list (list cell) :=
  match fails_at s with
  | None => sheet_rows s
  | Some (n, _) => firstn n (sheet_rows s)
  end.

(** [for cell in row: if cell.value: content_values.append(...)] *)
Fixpoint scan_row (file_id : Z) (sheet_name : string) (row : list cell)
         (content_values : list content_value) : list content_value :=
  match row with
  | [] => content_values
  | c :: row' =>
      scan_row file_id sheet_name row'
        (if truthy (value c)
         then (content_values ++
                 [mk_value file_id sheet_name (coordinate c) (py_str (value c))])%list
         else content_values)
  end.

Fixpoint scan_rows (file_id : Z) (sheet_name : string) (rows : list (list cell))
         (content_values : list content_value) : list content_value :=
  match rows with
  | [] => content_values
  | row :: rows' =>
      scan_rows file_id sheet_name rows' (scan_row file_id sheet_name row content_values)
  end.

(** The body of [for sheet_name in wb.sheetnames]: whatever the sheet raises
    is caught, and what was appended before stays in [content_values]. *)
Definition scan_sheet (file_id : Z) (wb : workbook) (sheet_name : string)
           (content_values : list content_value) : list content_value :=
  match getitem wb sheet_name with
  | Raise _ => content_values
  | Ok sheet => scan_rows file_id sheet_name (rows_read sheet) content_values
  end.

Definition collect_content_values (file_id : Z) (wb : workbook) : list content_value :=
  fold_left (fun content_values sheet_name => scan_sheet file_id wb sheet_name content_values)
            (sheetnames wb) [].

(** ** The environment and what a run leaves behind *)

(** The places where the store can fail while a file is indexed: taking the
    cursor and [BEGIN TRANSACTION], the two deletes, the two inserts, and
    [conn.commit()]. *)
Inductive sql_step :=
| SBegin | SDeleteFile | SDeleteContent | SInsertFile | SInsertContent | SCommit.

Record env := mk_env {
  (** [os.walk(folder)]: the directories with their file names *)
  walk : string -> list (string * list string);
  (** [datetime.fromtimestamp(os.path.getmtime(path))] *)
  getmtime : string -> result datetime;
  (** [openpyxl.load_workbook(path, read_only=True, data_only=True, ...)] *)
  load_workbook : string -> result workbook;
  (** a store failure (disk, lock) raised by one statement of the
      transaction for a given file, if any *)
  sql_fault : string -> sql_step -> option exn;
  (** when [executemany] is the statement that fails: how many rows of
      [content_values] it inserted before the one that raised *)
  fault_row : string -> nat;
  (** [datetime.now()] at the n-th reading of the clock *)
  now : nat -> datetime
}.

Inductive handle_event :=
| Opened (path : string)
| Closed (path : string).

Record world := mk_world {
  (** the lines of [index_errors.log] *)
  w_log : list string;
  (** the calls of [progress_callback], oldest first *)
  w_progress : list (Z * string);
  (** workbooks opened and closed, oldest first *)
  w_handles : list handle_event;
  (** how often the clock has been read *)
  w_clock : nat
}.

Definition new_world : world := mk_world [] [] [] 0.

Definition report (percent : Z) (label : string) (w : world) : world :=
  mk_world (w_log w) (w_progress w ++ [(percent, label)])%list (w_handles w) (w_clock w).

Definition note (ev : handle_event) (w : world) : world :=
  mk_world (w_log w) (w_progress w) (w_handles w ++ [ev])%list (w_clock w).

Definition tick (w : world) : world :=
  mk_world (w_log w) (w_progress w) (w_handles w) (S (w_clock w)).

Definition error_line (t : datetime) (file_path : string) (e : exn) : string :=
  isoformat t ++ ": 文件 " ++ file_path ++ " 索引失败: " ++ e
  ++ String (ascii_of_nat 10) "".

(** The outer [except] of [index_file]: one line appended to the log (the
    log file is taken to be writable). *)
Definition log_failure (E : env) (file_path : string) (e : exn) (w : world) : world :=
  tick (mk_world (w_log w ++ [error_line (now E (w_clock w)) file_path e])%list
                 (w_progress w) (w_handles w) (w_clock w)).

Definition guarded {A : Type} (E : env) (file_path : string) (s : sql_step)
           (c : result A) : result A :=
  match sql_fault E file_path s with
  | Some e => Raise e
  | None => c
  end.

(** ** [index_file] *)

(** A statement runs on the live connection.  What comes back is the
    connection as the statement left it and, when it raised, the exception:
    a statement that raises changes nothing itself, and what the statements
    before it did stays pending on the connection. *)
Definition statement {A : Type} (E : env) (file_path : string) (s : sql_step)
           (run : connection -> result (connection * A)) (c : connection)
  : connection * result A :=
  match guarded E file_path s (run c) with
  | Ok r => (fst r, Ok (snd r))
  | Raise e => (c, Raise e)
  end.

Definition and_then {A B : Type} (r : connection * result A)
           (k : connection -> A -> connection * result B) : connection * result B :=
  match r with
  | (c, Ok a) => k c a
  | (c, Raise e) => (c, Raise e)
  end.

Notation "' ( c , x ) <-- r ;;; k" := (and_then r (fun c x => k))
  (at level 61, c name, x name, r at next level, right associativity).

(** [cursor.executemany('INSERT INTO content_index ...', content_values)] on
    the live connection: when it fails, the rows inserted before the failing
    one stay pending. *)
Definition insert_rows (E : env) (file_path : string) (content_values : list content_value)
           (c : connection) : connection * result unit :=
  match sql_fault E file_path SInsertContent with
  | Some e =>
      (mk_conn (committed c)
               (Some (executemany (firstn (fault_row E file_path) content_values) (view c))),
       Raise e)
  | None =>
      (mk_conn (committed c) (Some (executemany content_values (view c))), Ok tt)
  end.

(** The statements between [BEGIN TRANSACTION] and [conn.commit()]. *)
Definition transaction (E : env) (wb : workbook) (file_path : string)
           (modified_time current_time : datetime) (c : connection)
  : connection * result unit :=
  '(c1, _) <-- statement E file_path SDeleteFile
                 (fun c => c' <- execute (delete_file file_path) c ;; Ok (c', tt)) c ;;;
  '(c2, _) <-- statement E file_path SDeleteContent
                 (fun c => c' <- execute (delete_content file_path) c ;; Ok (c', tt)) c1 ;;;
  '(c3, file_id) <-- statement E file_path SInsertFile
                       (execute_insert_file file_path (adapt_datetime modified_time)
                                            (adapt_datetime current_time)) c2 ;;;
  let content_values := collect_content_values file_id wb in
  '(c4, _) <-- insert_rows E file_path content_values c3 ;;;
  statement E file_path SCommit (fun c => Ok (commit c, tt)) c4.

(** [index_file]: when a statement of the transaction raises, the handler
    calls [conn.rollback()] on the connection as the statements left it,
    closes the workbook and re-raises into the outer handler, which writes
    the log line. *)
Definition index_file (E : env) (conn : connection) (w : world) (file_path : string)
           (modified_time current_time : datetime) : connection * world :=
  match load_workbook E file_path with
  | Raise e => (conn, log_failure E file_path e w)
  | Ok wb =>
      let w := note (Opened file_path) w in
      match guarded E file_path SBegin (begin_transaction conn) with
      | Raise e => (conn, log_failure E file_path e w)
      | Ok c =>
          match transaction E wb file_path modified_time current_time c with
          | (c', Ok _) => (c', note (Closed file_path) w)
          | (live, Raise e) =>
              (rollback live, log_failure E file_path e (note (Closed file_path) w))
          end
      end
  end.

(** ** [update_index] *)

Definition is_candidate (filename : string) : bool :=
  ((endswith filename ".xlsx" || endswith filename ".xlsm")
   && negb (startswith filename "~$"))%bool.

Definition excel_files (E : env) (folder_path : string) : list string :=
  flat_map (fun d => map (path_join (fst d)) (filter is_candidate (snd d)))
           (walk E folder_path).

(** [int((i + 1) * 100 / total_files)].  Python divides in floating point
    and truncates; for fewer than 2^47 files that is the integer quotient. *)
Definition percent (i total_files : Z) : Z := ((i + 1) * 100 / total_files)%Z.

Definition indexing_label (file_path : string) : string :=
  "正在索引: " ++ basename file_path.

Definition done_label : string := "索引完成".

(** The body of the loop of [update_index], with a progress callback
    supplied; its [except] swallows whatever was raised. *)
Definition process_file (E : env) (total_files : Z) (current_time : datetime)
           (i : Z) (file_path : string) (st : connection * world) : connection * world :=
  let (conn, w) := st in
  match getmtime E file_path with
  | Raise _ => st
  | Ok file_modified_time =>
      match needs_update conn file_path file_modified_time with
      | Raise _ => st
      | Ok false => st
      | Ok true =>
          index_file E conn (report (percent i total_files) (indexing_label file_path) w)
                     file_path file_modified_time current_time
      end
  end.

Fixpoint process_files (E : env) (total_files : Z) (current_time : datetime)
         (i : Z) (paths : list string) (st : connection * world) : connection * world :=
  match paths with
  | [] => st
  | file_path :: rest =>
      process_files E total_files current_time (i + 1) rest
                    (process_file E total_files current_time i file_path st)
  end.

(** A whole run on the database file [d], which is taken to open; closing
    the connection drops whatever was not committed. *)
Definition update_index (E : env) (d : db) (w : world) (folder_path : string) : db * world :=
  let current_time := now E (w_clock w) in
  let w := tick w in
  let paths := excel_files E folder_path in
  let total_files := Z.of_nat (length paths) in
  let (conn, w') :=
    process_files E total_files current_time 0 paths (get_connection d, w) in
  (committed conn, report 100 done_label w').

(** ** [search] *)

Definition ascii_lower (c : ascii) : ascii :=
  let n := nat_of_ascii c in
  if (65 <=? n)%nat && (n <=? 90)%nat then ascii_of_nat (n + 32) else c.

(** In UTF-8 a byte [10xxxxxx] continues a character and a byte of 192 or
    more begins one of several bytes; SQLite reads a character as such a
    leading byte with all the continuation bytes that follow it, and as one
    byte otherwise. *)
Definition is_continuation (c : ascii) : bool :=
  let n := nat_of_ascii c in (128 <=? n)%nat && (n <? 192)%nat.

Definition is_lead (c : ascii) : bool := (192 <=? nat_of_ascii c)%nat.

Fixpoint skip_continuation (s : string) : string :=
  match s with
  | "" => ""
  | String c s' => if is_continuation c then skip_continuation s' else s
  end.

(** [%]: [m] holds of the text from some character on.  [inside] tells
    whether the byte at hand follows a leading byte and its continuation
    bytes. *)
Fixpoint suffix_matches (m : string -> bool) (inside : bool) (t : string) : bool :=
  match t with
  | "" => m ""
  | String b t' =>
      if inside && is_continuation b then suffix_matches m true t'
      else m t || suffix_matches m (is_lead b) t'
  end.

(** SQLite's [LIKE] with its defaults, on texts in UTF-8: [%] stands for
    any run of characters, [_] for any one character, letters A-Z match in
    either case, any other character matches itself (compared byte by byte,
    which is how characters of well-formed UTF-8 compare). *)
Fixpoint like (pattern text : string) : bool :=
  match pattern with
  | "" => match text with "" => true | _ => false end
  | String c pattern' =>
      if Ascii.eqb c "%" then suffix_matches (like pattern') false text
      else
        match text with
        | "" => false
        | String d text' =>
            if Ascii.eqb c "_"
            then like pattern' (if is_lead d then skip_continuation text' else text')
            else Ascii.eqb (ascii_lower c) (ascii_lower d) && like pattern' text'
        end
  end.

(** SQLite reads both operands of [LIKE] as C strings: up to the first NUL. *)
Fixpoint c_string (s : string) : string :=
  match s with
  | "" => ""
  | String c s' => if Ascii.eqb c zero then "" else String c (c_string s')
  end.

Definition sql_like (pattern text : string) : bool :=
  like (c_string pattern) (c_string text).

(** [SQLITE_MAX_LIKE_PATTERN_LENGTH]: a longer pattern makes [LIKE] raise
    "LIKE or GLOB pattern too complex". *)
Definition like_pattern_limit : N := 50000.

Definition byte_length (s : string) : N := N.of_nat (String.length s).

Definition hit : Type := string * string * string * string.

Definition hit_of (f : file_row) (ci : content_row) : hit :=
  (f_path f, c_sheet_name ci, c_cell_coordinate ci, c_content ci).

(** [SELECT f.file_path, ci.sheet_name, ci.cell_coordinate, ci.content
     FROM content_index ci JOIN files f ON ci.file_id = f.id
     WHERE ci.content LIKE '%query%'], on a connection of its own (taken
    to open).  A pattern over the limit makes the query raise
    [sqlite3.OperationalError] as soon as a row is looked at, and the
    handler of [search] returns the empty list. *)
Definition search (d : db) (query : string) : list hit :=
  let pattern := "%" ++ query ++ "%" in
  if (like_pattern_limit <? byte_length pattern)%N then []
  else
    flat_map (fun ci =>
                if sql_like pattern (c_content ci)
                then map (fun f => hit_of f ci)
                         (filter (fun f => (c_file_id ci =? f_id f)%Z) (files d))
                else [])
             (content_index d).

(** ** Notions used to state the properties *)


Definition is_ascii_letter (c : ascii) : bool :=
  let n := nat_of_ascii c in
  (((65 <=? n)%nat && (n <=? 90)%nat) || ((97 <=? n)%nat && (n <=? 122)%nat))%bool.

Fixpoint letters_only (q : string) : bool :=
  match q with
  | "" => true
  | String c q' => is_ascii_letter c && letters_only q'
  end.

Definition is_upper (c : ascii) : bool :=
  let n := nat_of_ascii c in ((65 <=? n)%nat && (n <=? 90)%nat)%bool.

(** The same byte, or the same letter once as A-Z and once as a-z (the two
    codes are 32 apart). *)
Definition same_letter (c d : ascii) : bool :=
  (Ascii.eqb c d
   || (is_upper c && (nat_of_ascii d =? nat_of_ascii c + 32)%nat)
   || (is_upper d && (nat_of_ascii c =? nat_of_ascii d + 32)%nat))%bool.

(** [u] is [q] up to the case of ASCII letters. *)
Fixpoint case_variant (u q : string) : bool :=
  match u, q with
  | "", "" => true
  | String c u', String d q' => same_letter c d && case_variant u' q'
  | _, _ => false
  end.


(** The text does not begin in the middle of a character. *)
Definition clean_start (q : string) : bool :=
  match q with
  | "" => true
  | String c _ => negb (is_continuation c)
  end.

(** The pattern [%q%] is within SQLite's limit. *)
Definition within_limit (q : string) : bool :=
  negb (like_pattern_limit <? byte_length ("%" ++ q ++ "%"))%N.

Definition has_record (p : string) (d : db) : bool := existsb (has_path p) (files d).

Definition all_steps : list sql_step :=
  [SBegin; SDeleteFile; SDeleteContent; SInsertFile; SInsertContent; SCommit].

(** The workbook opens and no statement of the file's transaction fails. *)
Definition indexable (E : env) (p : string) : bool :=
  match load_workbook E p with
  | Ok _ => forallb (fun s => match sql_fault E p s with
                              | None => true
                              | Some _ => false
                              end) all_steps
  | Raise _ => false
  end.

(** What a cell contributes to [content_values]. *)
Definition entry_of (file_id : Z) (sheet_name : string) (c : cell) : content_value :=
  mk_value file_id sheet_name (coordinate c) (py_str (value c)).

(** In the words of the extractor's description: for every cell read from
    the sheet whose value passes the test, one tuple. *)
Definition entries_of_sheet (file_id : Z) (s : worksheet) : list content_value :=
  map (entry_of file_id (title s))
      (filter (fun c => truthy (value c)) (concat (rows_read s))).

Definition entries_of_workbook (file_id : Z) (wb : workbook) : list content_value :=
  flat_map (entries_of_sheet file_id) wb.

Definition value_of_row (ci : content_row) : content_value :=
  mk_value (c_file_id ci) (c_sheet_name ci) (c_cell_coordinate ci) (c_content ci).

(** The database a committed transaction of [index_file] leaves. *)
Definition reindexed (p : string) (modified_time current_time : datetime)
           (wb : workbook) (d : db) : db :=
  let kept := filter (fun f => negb (has_path p f)) (files d) in
  let file_id := next_rowid (map f_id kept) in
  executemany (collect_content_values file_id wb)
    (mk_db (kept ++ [mk_file file_id p (adapt_datetime modified_time)
                             (adapt_datetime current_time)])%list
           (content_index d)).

Definition entry : Type := string * string * string.

Definition entry_of_row (ci : content_row) : entry :=
  (c_sheet_name ci, c_cell_coordinate ci, c_content ci).

Definition entry_of_value (v : content_value) : entry :=
  (v_sheet_name v, v_cell_coordinate v, v_content v).

(** The rows of [content_index] owned by the [files] row of path [p]: the
    join of [search], kept to that path. *)
Definition owned (d : db) (p : string) : list entry :=
  flat_map (fun ci =>
              map (fun _ => entry_of_row ci)
                  (filter (fun f => has_path p f && (c_file_id ci =? f_id f)%Z) (files d)))
           (content_index d).

(** The declared foreign key: every [file_id] names a row of [files]. *)
Definition references_ok (d : db) : Prop :=
  forall ci, In ci (content_index d) -> exists f, In f (files d) /\ f_id f = c_file_id ci.

Fixpoint enumerate_from (i : Z) (paths : list string) : list (Z * string) :=
  match paths with
  | [] => []
  | p :: rest => (i, p) :: enumerate_from (i + 1) rest
  end.

(** The change detector, asked on the database [d], answers [True]. *)
Definition needs_indexing (E : env) (d : db) (p : string) : bool :=
  match getmtime E p with
  | Ok t =>
      match needs_update (get_connection d) p t with
      | Ok true => true
      | _ => false
      end
  | Raise _ => false
  end.

(** Nothing is left to do for [p] on the database [d]: its modification
    time cannot be read, it has a record, or it cannot be indexed. *)
Definition settled (E : env) (d : db) (p : string) : Prop :=
  (exists e, getmtime E p = Raise e) \/ has_record p d = true \/ indexable E p = false.

(** The progress report made for candidate number [i]. *)
Definition report_of (total_files : Z) (ip : Z * string) : Z * string :=
  (percent (fst ip) total_files, indexing_label (snd ip)).

(** ** Sample data *)

Definition jan_1 : datetime := mk_datetime 2024 1 1 0 0 0 0.
Definition jan_2 : datetime := mk_datetime 2024 1 2 8 30 0 5.
Definition jun_1 : datetime := mk_datetime 2024 6 1 12 0 0 0.

Definition fileA : string := "/data/fileA.xlsx".
Definition fileB : string := "/data/fileB.xlsm".

Definition fileA_row : file_row :=
  mk_file 1 fileA (adapt_datetime jan_1) (adapt_datetime jun_1).

Definition invoice_row : content_row := mk_content 1 1 "Sheet1" "A1" "Invoice 123".

(** The store after [fileA], holding "Invoice 123" in Sheet1!A1, was indexed. *)
Definition invoice_db : db := mk_db [fileA_row] [invoice_row].

Definition sheet1 (v : pyval) : worksheet := mk_sheet "Sheet1" [[mk_cell "A1" v]] None.

Definition no_fault : string -> sql_step -> option exn := fun _ _ => None.

(** A folder with [fileA], readable with the given workbook, and [fileB],
    which [openpyxl] cannot open. *)
Definition folder_env (wb : workbook) (fault : string -> sql_step -> option exn) : env :=
  mk_env (fun _ => [("/data", ["fileA.xlsx"; "~$fileA.xlsx"; "notes.txt"; "fileB.xlsm"])])
         (fun _ => Ok jan_2)
         (fun p => if String.eqb p fileA then Ok wb else Raise "File is not a zip file")
         fault
         (fun _ => 1%nat)
         (fun _ => jun_1).

Definition invoice_env : env := folder_env [sheet1 (PyStr "Invoice 123")] no_fault.

(** The store a first run over the folder leaves. *)
Definition indexed_db : db := fst (update_index invoice_env empty_db new_world "/data").

(** The same folder after A1 of [fileA] was changed. *)
Definition changed_env : env := folder_env [sheet1 (PyStr "Invoice 456")] no_fault.

Definition two_cells : workbook :=
  [mk_sheet "Sheet1" [[mk_cell "A1" (PyStr "Invoice 456")]; [mk_cell "A2" (PyStr "due")]]
            None].

(** The same folder when [fileA] holds two cells and the insert into
    [content_index] fails at the second row. *)
Definition failing_env : env :=
  folder_env two_cells
             (fun _ s => match s with
                         | SInsertContent => Some "disk I/O error"
                         | _ => None
                         end).

(** A connection on which a transaction is already open. *)
Definition busy_connection : connection := mk_conn invoice_db (Some invoice_db).

(** The same folder on a connection that was closed: [conn.cursor()] raises. *)
Definition closed_env : env :=
  folder_env [sheet1 (PyStr "Invoice 456")]
             (fun _ s => match s with
                         | SBegin => Some "Cannot operate on a closed database."
                         | _ => None
                         end).

(** A workbook whose second sheet breaks after its first row. *)
Definition torn_workbook : workbook :=
  [mk_sheet "Summary" [[mk_cell "A1" (PyStr "total"); mk_cell "B1" (PyInt 0)];
                       [mk_cell "A2" PyNone; mk_cell "B2" (PyInt 7)]] None;
   mk_sheet "Data" [[mk_cell "A1" (PyStr "x")]; [mk_cell "A2" (PyStr "y")]]
            (Some (1%nat, "unexpected end of data"));
   mk_sheet "Notes" [[mk_cell "C3" (PyBool true)]] None].

Definition torn_env : env := folder_env torn_workbook no_fault.

(** A store with two indexed files, [fileA] first. *)
Definition two_files_db : db :=
  mk_db [fileA_row; mk_file 2 fileB (adapt_datetime jan_1) (adapt_datetime jun_1)]
        [invoice_row; mk_content 2 2 "Sheet1" "B2" "paid"].

(** A store in which both files of the folder have a row. *)
Definition recorded_db : db :=
  mk_db [fileA_row; mk_file 2 fileB (adapt_datetime jan_1) (adapt_datetime jun_1)]
        [invoice_row].

(** A cell text of 49999 letters and the same text in capitals. *)
Definition long_text : string := N.iter 49999 (String "a") "".
Definition long_query : string := N.iter 49999 (String "A") "".

Definition long_row : content_row := mk_content 1 1 "Sheet1" "A1" long_text.

Definition long_db : db := mk_db [fileA_row] [long_row].

(** A store that still holds a file that is no longer on disk. *)
Definition gone_db : db :=
  mk_db [mk_file 1 "/old/gone.xlsx" (adapt_datetime jan_1) (adapt_datetime jan_1)]
        [mk_content 1 1 "Sheet1" "A1" "kept"].

(** ** The rest of the window and its helpers *)

(** [s[n:]] *)
Fixpoint drop (n : nat) (s : string) : string :=
  match n, s with
  | O, _ => s
  | S n', String _ s' => drop n' s'
  | S _, "" => ""
  end.

(** [s[:n]] *)
Fixpoint take (n : nat) (s : string) : string :=
  match n, s with
  | S n', String c s' => String c (take n' s')
  | _, _ => ""
  end.

(** The index of the first [c] in [s], if any. *)
Fixpoint index_of (c : ascii) (s : string) : option nat :=
  match s with
  | "" => None
  | String d s' =>
      if Ascii.eqb d c then Some O
      else match index_of c s' with
           | Some i => Some (S i)
           | None => None
           end
  end.

(** [s.find(c, start)]: the index of the first [c] at or after [start],
    or -1. *)
Definition py_find (s : string) (c : ascii) (start : nat) : Z :=
  match index_of c (drop start s) with
  | Some i => Z.of_nat (start + i)
  | None => (-1)%Z
  end.

(** [MainWindow.extract_file_path]: the text between the first two single
    quotes, or [None]. *)
Definition extract_file_path (text : string) : option string :=
  let start := (py_find text "'" 0 + 1)%Z in
  let end_ := py_find text "'" (Z.to_nat start) in
  if ((0 <? start)%Z && (start <? end_)%Z)%bool
  then Some (take (Z.to_nat end_ - Z.to_nat start) (drop (Z.to_nat start) text))
  else None.

Fixpoint no_char (c : ascii) (s : string) : bool :=
  match s with
  | "" => true
  | String d s' => negb (Ascii.eqb d c) && no_char c s'
  end.

(** *** [Config] *)

(** A dict with text keys and values, in insertion order. *)
Definition pydict := list (string * string).

(** [d.get(key, default)] *)
Fixpoint dict_get (d : pydict) (key default : string) : string :=
  match d with
  | [] => default
  | (k, v) :: d' => if String.eqb k key then v else dict_get d' key default
  end.

(** [d[key] = value] *)
Fixpoint dict_set (d : pydict) (key value : string) : pydict :=
  match d with
  | [] => [(key, value)]
  | (k, v) :: d' =>
      if String.eqb k key then (k, value) :: d' else (k, v) :: dict_set d' key value
  end.

(** What [config.json] is on disk: absent, not JSON, or the JSON text of a
    dict (which [json.load] gives back as [json.dump] was given it). *)
Inductive config_file :=
| NoFile
| NotJson
| JsonOf (d : pydict).

(** [Config.load_config]: only a missing file is caught. *)
Definition load_config (file : config_file) : result pydict :=
  match file with
  | NoFile => Ok [("last_folder", "")]
  | NotJson => Raise "Expecting value: line 1 column 1 (char 0)"
  | JsonOf d => Ok d
  end.

(** [Config.save_config] *)
Definition save_config (config : pydict) : config_file := JsonOf config.

Definition get_last_folder (config : pydict) : string := dict_get config "last_folder" "".

(** [Config.set_last_folder]: the new dict and the file it was saved to. *)
Definition set_last_folder (config : pydict) (folder : string) : pydict * config_file :=
  let config' := dict_set config "last_folder" folder in
  (config', save_config config').

(** *** [IndexingDialog] *)

Record dialog := mk_dialog {
  progress_bar : Z;
  status_label : string
}.

(** [QProgressBar.setValue] on a bar of range 0..100: a value outside the
    range leaves the bar as it is. *)
Definition setValue (value : Z) (bar : Z) : Z :=
  if ((0 <=? value)%Z && (value <=? 100)%Z)%bool then value else bar.

(** [IndexingDialog.update_progress(value, text)] *)
Definition update_progress (dlg : dialog) (value : Z) (text : option string) : dialog :=
  mk_dialog (setValue value (progress_bar dlg))
            (match text with
             | Some t => if String.eqb t "" then status_label dlg else t
             | None => status_label dlg
             end).

(** The dialog after the reports of a run, in order. *)
Definition show_progress (dlg : dialog) (reports : list (Z * string)) : dialog :=
  fold_left (fun d r => update_progress d (fst r) (Some (snd r))) reports dlg.

(** *** Keys of the store *)

(** What the schema declares: [files.id] and [content_index.id] are primary
    keys, [files.file_path] is unique. *)
Definition keys_ok (d : db) : Prop :=
  NoDup (map f_id (files d)) /\ NoDup (map f_path (files d))
  /\ NoDup (map c_id (content_index d)).

(** No statement of any file's transaction fails at [BEGIN]. *)
Definition begin_never_fails (E : env) : Prop := forall p, sql_fault E p SBegin = None.

(** *** The result list of the window *)

(** The text inserted after the path of a hit. *)
Definition describe (h : hit) : string :=
  " (工作表: " ++ snd (fst (fst h)) ++ ", 位置: " ++ snd (fst h)
  ++ ", 内容: " ++ snd h ++ ")" ++ String (ascii_of_nat 10) "".

Section Links.

(** By how much [cursor.insertText(t)] advances [cursor.position()]. *)
Variable width : string -> Z.

(** The loop of [start_query]: for each hit the range of its path in the
    result text, the cursor starting at [position]. *)
Fixpoint file_positions (position : Z) (results : list hit) : list (Z * Z * string) :=
  match results with
  | [] => []
  | h :: rest =>
      let file_path := fst (fst (fst h)) in
      let start_pos := position in
      let end_pos := (start_pos + width file_path)%Z in
      (start_pos, end_pos, file_path)
        :: file_positions (end_pos + width (describe h))%Z rest
  end.

(** [MainWindow.start_query]: [None] stands for the warning shown when the
    query or the folder is empty; otherwise the link ranges of the hits. *)
Definition start_query (d : db) (query folder_path : string)
  : option (list (Z * Z * string)) :=
  if (String.eqb query "" || String.eqb folder_path "")%bool then None
  else Some (file_positions 0 (search d query)).

End Links.

(** The loop of [ClickableTextEdit.mousePressEvent]: the file that is
    opened by a left click at [position], if any. *)
Fixpoint link_at (positions : list (Z * Z * string)) (position : Z) : option string :=
  match positions with
  | [] => None
  | (start, end_, file_path) :: rest =>
      if ((start <=? position)%Z && (position <=? end_)%Z)%bool then Some file_path
      else link_at rest position
  end.

(** One position per byte: what the cursor advances by for ASCII text. *)
Definition char_count (s : string) : Z := Z.of_nat (String.length s).

(** * Properties *)

(** ** Strings *)

Lemma append_assoc (a b c : string) : (a ++ b) ++ c = a ++ (b ++ c).
Proof. induction a as [|x a IH]; simpl; [reflexivity | now rewrite IH]. Qed.

Lemma append_empty_r (a : string) : a ++ "" = a.
Proof. induction a as [|x a IH]; simpl; [reflexivity | now rewrite IH]. Qed.

Lemma startswith_spec (s q : string) :
  startswith s q = true <-> exists post, s = q ++ post.
Proof.
  revert s; induction q as [|c q IH]; intros s; simpl.
  - split; [intros _; now exists s | reflexivity].
  - destruct s as [|d s].
    + split; [discriminate | intros [post H]; discriminate].
    + rewrite andb_true_iff, IH, Ascii.eqb_eq. split.
      * intros [-> [post ->]]. now exists post.
      * intros [post H]. injection H as -> ->. split; [reflexivity | now exists post].
Qed.



(** ** LIKE *)

Lemma like_percent (p t : string) :
  like (String "%" p) t = suffix_matches (like p) false t.
Proof. reflexivity. Qed.

Lemma like_char (c : ascii) (p t : string) :
  Ascii.eqb c "%" = false ->
  like (String c p) t
  = match t with
    | "" => false
    | String d t' =>
        if Ascii.eqb c "_"
        then like p (if is_lead d then skip_continuation t' else t')
        else Ascii.eqb (ascii_lower c) (ascii_lower d) && like p t'
    end.
Proof. intros H. cbn [like]. now rewrite H. Qed.

(** At the start of the text, and wherever a character starts. *)
Lemma suffix_matches_here (m : string -> bool) (t : string) :
  m t = true -> suffix_matches m false t = true.
Proof. intros H. destruct t as [|b t]; cbn [suffix_matches andb]; now rewrite H. Qed.

Lemma suffix_matches_app (m : string -> bool) (pre s : string) (inside : bool) :
  clean_start s = true -> m s = true -> suffix_matches m inside (pre ++ s) = true.
Proof.
  intros Hs Hm. revert inside. induction pre as [|x pre IH]; intros inside.
  - cbn [append]. destruct s as [|b s]; cbn [suffix_matches]; [exact Hm|].
    cbn [clean_start] in Hs. apply negb_true_iff in Hs. rewrite Hs, andb_false_r, Hm.
    reflexivity.
  - cbn [append suffix_matches]. destruct (inside && is_continuation x); [apply IH|].
    rewrite IH. apply orb_true_r.
Qed.

Lemma suffix_matches_some (m : string -> bool) (t : string) (inside : bool) :
  suffix_matches m inside t = true -> exists pre post, t = pre ++ post /\ m post = true.
Proof.
  revert inside. induction t as [|b t IH]; intros inside; cbn [suffix_matches].
  - intros H. now exists "", "".
  - destruct (inside && is_continuation b).
    + intros H. destruct (IH _ H) as (pre & post & -> & Hm). now exists (String b pre), post.
    + intros H. apply orb_true_iff in H as [H | H].
      * now exists "", (String b t).
      * destruct (IH _ H) as (pre & post & -> & Hm). now exists (String b pre), post.
Qed.

Lemma like_only_percent (t : string) : like "%" t = true.
Proof.
  rewrite like_percent. rewrite <- (append_empty_r t). now apply suffix_matches_app.
Qed.

(** A pattern matches its own text, metacharacters included. *)
Lemma like_literal_prefix (q rest t : string) :
  like rest t = true -> like (q ++ rest) (q ++ t) = true.
Proof.
  intros H. induction q as [|c q IH]; cbn [append]; [exact H|].
  destruct (Ascii.eqb c "%") eqn:Hc.
  - apply Ascii.eqb_eq in Hc as ->. rewrite like_percent. cbn [suffix_matches andb].
    change (is_lead "%") with false.
    rewrite (suffix_matches_here _ _ IH). apply orb_true_r.
  - rewrite like_char by exact Hc. destruct (Ascii.eqb c "_") eqn:Hu.
    + apply Ascii.eqb_eq in Hu as ->. exact IH.
    + now rewrite Ascii.eqb_refl, IH.
Qed.




Lemma like_contains_literal (q s : string) :
  clean_start q = true -> is_substring q s -> like ("%" ++ q ++ "%") s = true.
Proof.
  intros Hq (pre & post & ->). change ("%" ++ q ++ "%") with (String "%" (q ++ "%")).
  rewrite like_percent. destruct q as [|c q].
  - apply suffix_matches_here. apply like_only_percent.
  - apply suffix_matches_app; [exact Hq|].
    apply like_literal_prefix, like_only_percent.
Qed.









(** ** [search] *)

Lemma in_search (d : db) (q : string) (h : hit) :
  In h (search d q)
  <-> within_limit q = true
      /\ exists ci f, In ci (content_index d) /\ In f (files d) /\ c_file_id ci = f_id f
                      /\ sql_like ("%" ++ q ++ "%") (c_content ci) = true
                      /\ h = hit_of f ci.
Proof.
  unfold search, within_limit.
  destruct (like_pattern_limit <? byte_length ("%" ++ q ++ "%"))%N; cbn [negb].
  - split; [intros [] | intros [H _]; discriminate H].
  - rewrite in_flat_map. split.
    + intros (ci & Hci & H). split; [reflexivity|].
      destruct (sql_like _ (c_content ci)) eqn:Hl; [|contradiction].
      apply in_map_iff in H as (f & <- & Hf). apply filter_In in Hf as [Hf Hid].
      apply Z.eqb_eq in Hid. now exists ci, f.
    + intros (_ & ci & f & Hci & Hf & Hid & Hl & ->). exists ci. split; [exact Hci|].
      rewrite Hl. apply in_map_iff. exists f. split; [reflexivity|].
      apply filter_In. split; [exact Hf | now apply Z.eqb_eq].
Qed.

Lemma search_returns_iff_like (d : db) (q : string) (f : file_row) (ci : content_row) :
  In ci (content_index d) -> In f (files d) -> c_file_id ci = f_id f ->
  In (hit_of f ci) (search d q)
  <-> within_limit q = true /\ sql_like ("%" ++ q ++ "%") (c_content ci) = true.
Proof.
  intros Hci Hf Hid. rewrite in_search. split.
  - intros (Hw & ci' & f' & _ & _ & _ & Hl & Heq). unfold hit_of in Heq.
    injection Heq as _ _ _ Hc. split; [exact Hw | now rewrite Hc].
  - intros [Hw Hl]. split; [exact Hw | now exists ci, f].
Qed.






(** C10 as stated fails for a long query: a cell holds 49999 letters a, the
    query is the same text in capitals, which differs from the stored text
    only in letter case, and [search] returns nothing, because the pattern
    is over SQLite's limit and the handler returns the empty list. *)
Lemma long_query_counterexample :
  ~ (letters_only long_query = true ->
     In long_row (content_index long_db) -> In fileA_row (files long_db) ->
     c_file_id long_row = f_id fileA_row ->
     is_substring long_text (c_content long_row) ->
     case_variant long_text long_query = true ->
     In (hit_of fileA_row long_row) (search long_db long_query)).
Proof.
  intros H.
  assert (Hin : In (hit_of fileA_row long_row) (search long_db long_query)).
  { apply H.
    - vm_compute. reflexivity.
    - left. reflexivity.
    - left. reflexivity.
    - reflexivity.
    - exists "", "". cbn [c_content long_row append]. now rewrite append_empty_r.
    - vm_compute. reflexivity. }
  assert (Hnone : search long_db long_query = []) by (vm_compute; reflexivity).
  rewrite Hnone in Hin. exact Hin.
Qed.

(** ** The change detector *)

Lemma select_last_modified_none (p : string) (d : db) :
  select_last_modified p d = None <-> has_record p d = false.
Proof.
  unfold select_last_modified, has_record. induction (files d) as [|f l IH]; simpl.
  - split; reflexivity.
  - destruct (has_path p f); simpl; [split; discriminate | exact IH].
Qed.

Lemma needs_update_no_record (c : connection) (p : string) (t : datetime) :
  has_record p (view c) = false -> needs_update c p t = Ok true.
Proof.
  intros H. apply select_last_modified_none in H. unfold needs_update. now rewrite H.
Qed.

(** A stored timestamp is fetched as text, and text does not compare with a
    [datetime]. *)
Lemma needs_update_record (c : connection) (p : string) (t : datetime) :
  has_record p (view c) = true -> exists e, needs_update c p t = Raise e.
Proof.
  intros H. unfold needs_update.
  destruct (select_last_modified p (view c)) as [v|] eqn:Hs.
  - unfold select_last_modified in Hs.
    destruct (filter (has_path p) (files (view c))) as [|f l]; [discriminate|].
    injection Hs as <-. destruct (f_last_modified f); simpl; eauto.
  - apply select_last_modified_none in Hs. congruence.
Qed.

(** C5 at a path with a record: the stored time is older than (first
    conjunct) or equal to (second conjunct) the current one, and
    [needs_update] raises instead of answering; without a record it answers
    [True]. *)
Theorem needs_update_raises_on_record :
  needs_update (get_connection invoice_db) fileA jan_2
  = Raise "'<' not supported between instances of 'str' and 'datetime.datetime'"
  /\ needs_update (get_connection invoice_db) fileA jan_1
     = Raise "'<' not supported between instances of 'str' and 'datetime.datetime'"
  /\ needs_update (get_connection invoice_db) fileB jan_1 = Ok true.
Proof. repeat split. Qed.

(** ** The transaction of [index_file] *)

Lemma filter_has_path_deleted (p : string) (l : list file_row) :
  filter (has_path p) (filter (fun f => negb (has_path p f)) l) = [].
Proof.
  induction l as [|f l IH]; simpl; [reflexivity|].
  destruct (has_path p f) eqn:H; simpl; [exact IH | now rewrite H].
Qed.

Lemma filter_all {A : Type} (l : list A) : filter (fun _ => true) l = l.
Proof. induction l as [|x l IH]; simpl; [reflexivity | now rewrite IH]. Qed.

(** Once the [files] row is gone the subquery finds no id, and the second
    DELETE removes nothing. *)
Lemma delete_content_after_delete_file (p : string) (d : db) :
  delete_content p (delete_file p d) = delete_file p d.
Proof.
  unfold delete_content, delete_file. simpl.
  rewrite filter_has_path_deleted. simpl. now rewrite filter_all.
Qed.

Lemma has_record_deleted (p : string) (d : db) : has_record p (delete_file p d) = false.
Proof.
  unfold has_record, delete_file. simpl.
  induction (files d) as [|f l IH]; simpl; [reflexivity|].
  destruct (has_path p f) eqn:H; simpl; [exact IH | now rewrite H].
Qed.

Lemma transaction_result (E : env) (wb : workbook) (p : string) (mt ct : datetime)
      (d0 d : db) (c' : connection) (u : unit) :
  transaction E wb p mt ct (mk_conn d0 (Some d)) = (c', Ok u) ->
  c' = mk_conn (reindexed p mt ct wb d) None.
Proof.
  unfold transaction, statement, insert_rows, guarded, execute, execute_insert_file, view.
  simpl.
  destruct (sql_fault E p SDeleteFile); [discriminate|]. simpl.
  destruct (sql_fault E p SDeleteContent); [discriminate|]. simpl.
  destruct (sql_fault E p SInsertFile); [discriminate|].
  rewrite delete_content_after_delete_file.
  unfold insert_file. fold (has_record p (delete_file p d)).
  rewrite has_record_deleted. simpl.
  destruct (sql_fault E p SInsertContent); [discriminate|]. simpl.
  destruct (sql_fault E p SCommit); [discriminate|].
  intros H. injection H as <-. reflexivity.
Qed.

Lemma transaction_commits (E : env) (wb : workbook) (p : string) (mt ct : datetime)
      (d0 d : db) :
  (forall s, sql_fault E p s = None) ->
  transaction E wb p mt ct (mk_conn d0 (Some d))
  = (mk_conn (reindexed p mt ct wb d) None, Ok tt).
Proof.
  intros H.
  unfold transaction, statement, insert_rows, guarded, execute, execute_insert_file, view.
  simpl.
  rewrite ?H. simpl. rewrite ?H. rewrite delete_content_after_delete_file.
  unfold insert_file. fold (has_record p (delete_file p d)).
  rewrite has_record_deleted. simpl. rewrite ?H. reflexivity.
Qed.

(** A failing statement makes the transaction raise, whichever it is. *)
Lemma transaction_fault_raises (E : env) (wb : workbook) (p : string) (mt ct : datetime)
      (c : connection) (s : sql_step) (e : exn) :
  s <> SBegin -> sql_fault E p s = Some e ->
  exists live e', transaction E wb p mt ct c = (live, Raise e').
Proof.
  intros Hs Hf. unfold transaction, statement, insert_rows, guarded.
  destruct (sql_fault E p SDeleteFile) eqn:H1; [simpl; eauto|]. simpl.
  destruct (sql_fault E p SDeleteContent) eqn:H2; [simpl; eauto|]. simpl.
  destruct (sql_fault E p SInsertFile) eqn:H3; [simpl; eauto|].
  destruct (execute_insert_file _ _ _ _) as [r|e0]; [|simpl; eauto]. simpl.
  destruct (sql_fault E p SInsertContent) eqn:H4; [simpl; eauto|]. simpl.
  destruct (sql_fault E p SCommit) eqn:H5; [simpl; eauto|].
  destruct s; congruence.
Qed.

(** Until [conn.commit()] has run, the statements of the transaction work on
    the pending copy: when one of them raises, the connection it leaves
    still has the committed database it began with. *)
Lemma transaction_raise_committed (E : env) (wb : workbook) (p : string)
      (mt ct : datetime) (c live : connection) (e : exn) :
  transaction E wb p mt ct c = (live, Raise e) -> committed live = committed c.
Proof.
  unfold transaction, statement, insert_rows, guarded, execute, execute_insert_file.
  destruct (sql_fault E p SDeleteFile); simpl.
  { intros H. now injection H as <- _. }
  destruct (sql_fault E p SDeleteContent); simpl.
  { intros H. now injection H as <- _. }
  destruct (sql_fault E p SInsertFile); simpl.
  { intros H. now injection H as <- _. }
  destruct (insert_file _ _ _ _) as [r|e0]; simpl.
  2: { intros H. now injection H as <- _. }
  destruct (sql_fault E p SInsertContent); simpl.
  { intros H. now injection H as <- _. }
  destruct (sql_fault E p SCommit); simpl.
  { intros H. now injection H as <- _. }
  discriminate.
Qed.

Lemma begin_transaction_ok (conn c : connection) :
  begin_transaction conn = Ok c ->
  pending conn = None /\ c = mk_conn (committed conn) (Some (committed conn)).
Proof.
  unfold begin_transaction. destruct (pending conn); [discriminate|].
  intros H. injection H as <-. auto.
Qed.

Lemma connection_eta (conn : connection) :
  pending conn = None -> mk_conn (committed conn) None = conn.
Proof. destruct conn; simpl; now intros ->. Qed.

(** [index_file] is all or nothing on a connection without an open
    transaction: the connection comes back untouched, or with the file
    replaced and committed. *)
Lemma index_file_cases (E : env) (conn : connection) (w : world) (p : string)
      (mt ct : datetime) :
  pending conn = None ->
  fst (index_file E conn w p mt ct) = conn
  \/ exists wb, load_workbook E p = Ok wb
                /\ (forall s, sql_fault E p s = None)
                /\ fst (index_file E conn w p mt ct)
                   = mk_conn (reindexed p mt ct wb (committed conn)) None.
Proof.
  intros Hp. unfold index_file.
  destruct (load_workbook E p) as [wb|e]; [|now left].
  destruct (guarded E p SBegin (begin_transaction conn)) as [c|e] eqn:Hb; [|now left].
  unfold guarded in Hb. destruct (sql_fault E p SBegin) eqn:Hf; [discriminate|].
  apply begin_transaction_ok in Hb as [_ ->].
  destruct (transaction _ _ _ _ _ _) as [c' [u|e]] eqn:Ht.
  - right. exists wb. split; [reflexivity|].
    pose proof (transaction_result _ _ _ _ _ _ _ _ _ Ht) as ->. split; [|reflexivity].
    intros s. destruct (sql_fault E p s) as [e|] eqn:Hs; [|reflexivity].
    assert (Hne : s <> SBegin) by congruence.
    destruct (transaction_fault_raises E wb p mt ct
                (mk_conn (committed conn) (Some (committed conn))) s e Hne Hs)
      as (live & e' & He').
    congruence.
  - left. cbn [fst]. unfold rollback.
    rewrite (transaction_raise_committed _ _ _ _ _ _ _ _ Ht). cbn [committed].
    now apply connection_eta.
Qed.

Lemma indexable_spec (E : env) (p : string) :
  indexable E p = true
  <-> exists wb, load_workbook E p = Ok wb /\ forall s, sql_fault E p s = None.
Proof.
  unfold indexable. destruct (load_workbook E p) as [wb|e].
  - rewrite forallb_forall. split.
    + intros H. exists wb. split; [reflexivity|]. intros s.
      specialize (H s). destruct (sql_fault E p s); [|reflexivity].
      assert (In s all_steps) by (destruct s; simpl; tauto). now apply H in H0.
    + intros (_ & _ & H) s _. now rewrite H.
  - split; [discriminate | intros (wb & H & _); discriminate].
Qed.

Lemma index_file_success (E : env) (conn : connection) (w : world) (p : string)
      (mt ct : datetime) (wb : workbook) :
  load_workbook E p = Ok wb -> (forall s, sql_fault E p s = None) -> pending conn = None ->
  index_file E conn w p mt ct
  = (mk_conn (reindexed p mt ct wb (committed conn)) None,
     note (Closed p) (note (Opened p) w)).
Proof.
  intros Hl Hf Hp. unfold index_file. rewrite Hl.
  assert (Hb : guarded E p SBegin (begin_transaction conn)
               = Ok (mk_conn (committed conn) (Some (committed conn)))).
  { unfold guarded, begin_transaction. now rewrite Hf, Hp. }
  rewrite Hb. now rewrite transaction_commits.
Qed.

Lemma index_file_not_indexable (E : env) (conn : connection) (w : world) (p : string)
      (mt ct : datetime) :
  indexable E p = false -> pending conn = None ->
  fst (index_file E conn w p mt ct) = conn.
Proof.
  intros Hi Hp. destruct (index_file_cases E conn w p mt ct Hp) as [H | (wb & Hl & Hf & _)].
  - exact H.
  - assert (indexable E p = true) by (apply indexable_spec; eauto). congruence.
Qed.

Lemma index_file_pending (E : env) (conn : connection) (w : world) (p : string)
      (mt ct : datetime) :
  pending conn = None -> pending (fst (index_file E conn w p mt ct)) = None.
Proof.
  intros Hp. destruct (index_file_cases E conn w p mt ct Hp) as [-> | (wb & _ & _ & ->)];
    [exact Hp | reflexivity].
Qed.

(** C2: when a statement inside the transaction of [index_file] fails, the
    handler rolls back the connection as the statements left it, whatever
    they had written by then: the connection is left with the committed
    database it had before [BEGIN] (the rows of this path and of every other
    path as they were) and with no pending row, and the failure is logged. *)
Theorem index_file_rollback (E : env) (conn c live : connection) (w : world) (p : string)
        (mt ct : datetime) (wb : workbook) (e : exn) :
  load_workbook E p = Ok wb ->
  guarded E p SBegin (begin_transaction conn) = Ok c ->
  transaction E wb p mt ct c = (live, Raise e) ->
  committed (fst (index_file E conn w p mt ct)) = committed conn
  /\ pending (fst (index_file E conn w p mt ct)) = None
  /\ w_log (snd (index_file E conn w p mt ct))
     = (w_log w ++ [error_line (now E (w_clock w)) p e])%list.
Proof.
  intros Hl Hb Ht. unfold index_file. rewrite Hl, Hb, Ht. cbn [fst snd].
  unfold rollback. cbn [committed pending].
  rewrite (transaction_raise_committed _ _ _ _ _ _ _ _ Ht).
  unfold guarded in Hb. destruct (sql_fault E p SBegin); [discriminate|].
  apply begin_transaction_ok in Hb as [_ ->]. auto.
Qed.

(** The insert into [content_index] fails at the second of two rows: by
    then the [files] row of [fileA] has been replaced and the first content
    row written, both pending on the connection; [index_file] leaves the
    store as it was. *)
Lemma index_file_rollback_witness :
  transaction failing_env two_cells fileA jan_2 jun_1
              (mk_conn invoice_db (Some invoice_db))
  = (mk_conn invoice_db
             (Some (mk_db [mk_file 1 fileA (adapt_datetime jan_2) (adapt_datetime jun_1)]
                          [invoice_row; mk_content 2 1 "Sheet1" "A1" "Invoice 456"])),
     Raise "disk I/O error")
  /\ committed (fst (index_file failing_env (get_connection invoice_db) new_world
                                fileA jan_2 jun_1)) = invoice_db
  /\ pending (fst (index_file failing_env (get_connection invoice_db) new_world
                              fileA jan_2 jun_1)) = None
  /\ w_log (snd (index_file failing_env (get_connection invoice_db) new_world
                            fileA jan_2 jun_1))
     = ([] ++ [error_line jun_1 fileA "disk I/O error"])%list.
Proof.
  split; [reflexivity|].
  apply (index_file_rollback failing_env (get_connection invoice_db)
           (mk_conn invoice_db (Some invoice_db))
           (mk_conn invoice_db
              (Some (mk_db [mk_file 1 fileA (adapt_datetime jan_2) (adapt_datetime jun_1)]
                           [invoice_row; mk_content 2 1 "Sheet1" "A1" "Invoice 456"])))
           new_world fileA jan_2 jun_1 two_cells "disk I/O error").
  - reflexivity.
  - reflexivity.
  - reflexivity.
Defined.

(** C1 at a re-index: [fileA] is indexed with "Invoice 123" in A1, then
    again after A1 became "Invoice 456".  The second run succeeds, its
    extraction is the one new entry, and the path owns both the old and the
    new row ([search] returns both): the row of the first version was not
    deleted. *)
Theorem reindex_keeps_prior_rows :
  let first := index_file invoice_env (get_connection empty_db) new_world fileA jan_1 jun_1 in
  let second := index_file changed_env (fst first) (snd first) fileA jan_2 jun_1 in
  committed (fst first) = invoice_db
  /\ w_log (snd second) = []
  /\ map entry_of_value (collect_content_values 1 [sheet1 (PyStr "Invoice 456")])
     = [("Sheet1", "A1", "Invoice 456")]
  /\ owned (committed (fst second)) fileA
     = [("Sheet1", "A1", "Invoice 123"); ("Sheet1", "A1", "Invoice 456")]
  /\ search (committed (fst second)) "Invoice"
     = [(fileA, "Sheet1", "A1", "Invoice 123"); (fileA, "Sheet1", "A1", "Invoice 456")].
Proof. vm_compute. repeat split. Qed.

Lemma executemany_files (vs : list content_value) (d : db) :
  files (executemany vs d) = files d.
Proof.
  unfold executemany. revert d. induction vs as [|v vs IH]; intros d; simpl;
    [reflexivity | now rewrite IH].
Qed.

Lemma executemany_content (vs : list content_value) (d : db) :
  exists rows, content_index (executemany vs d) = (content_index d ++ rows)%list
               /\ map value_of_row rows = vs.
Proof.
  unfold executemany. revert d. induction vs as [|v vs IH]; intros d; simpl.
  - exists []. now rewrite app_nil_r.
  - destruct (IH (insert_content v d)) as (rows & -> & Hr). simpl.
    eexists (_ :: rows). rewrite <- app_assoc. split; [reflexivity|].
    simpl. rewrite Hr. destruct v; reflexivity.
Qed.

(** Whatever [index_file] does on a connection without an open transaction,
    the rows that were in [content_index] are still there afterwards. *)
Lemma index_file_keeps_content (E : env) (conn : connection) (w : world) (p : string)
      (mt ct : datetime) :
  pending conn = None ->
  exists rows,
    content_index (committed (fst (index_file E conn w p mt ct)))
    = (content_index (committed conn) ++ rows)%list.
Proof.
  intros Hp. destruct (index_file_cases E conn w p mt ct Hp) as [-> | (wb & _ & _ & ->)].
  - exists []. now rewrite app_nil_r.
  - simpl. unfold reindexed.
    destruct (executemany_content
                (collect_content_values
                   (next_rowid (map f_id (filter (fun f => negb (has_path p f))
                                                 (files (committed conn))))) wb)
                (mk_db (filter (fun f => negb (has_path p f)) (files (committed conn))
                          ++ [mk_file (next_rowid (map f_id (filter (fun f => negb (has_path p f))
                                                 (files (committed conn))))) p
                                      (adapt_datetime mt) (adapt_datetime ct)])%list
                       (content_index (committed conn)))) as (rows & H & _).
    exists rows. exact H.
Qed.

(** C8 when the statement before the [try] raises: the workbook of [fileA]
    opens, [BEGIN TRANSACTION] fails because a transaction is already open
    (first conjunct) or [conn.cursor()] fails on a closed connection (third
    conjunct), and the handle is recorded as opened and never as closed. *)
Theorem index_file_leaves_workbook_open :
  w_handles (snd (index_file changed_env busy_connection new_world fileA jan_2 jun_1))
  = [Opened fileA]
  /\ w_log (snd (index_file changed_env busy_connection new_world fileA jan_2 jun_1))
     = [error_line jun_1 fileA "cannot start a transaction within a transaction"]
  /\ w_handles (snd (index_file closed_env (get_connection invoice_db) new_world
                                fileA jan_2 jun_1))
     = [Opened fileA].
Proof. vm_compute. repeat split. Qed.

(** Once the transaction has begun, the handle is closed on the way out. *)
Lemma index_file_closes_after_begin (E : env) (conn c : connection) (w : world)
      (p : string) (mt ct : datetime) (wb : workbook) :
  load_workbook E p = Ok wb ->
  guarded E p SBegin (begin_transaction conn) = Ok c ->
  w_handles (snd (index_file E conn w p mt ct)) = (w_handles w ++ [Opened p; Closed p])%list.
Proof.
  intros Hl Hb. unfold index_file. rewrite Hl, Hb.
  destruct (transaction E wb p mt ct c) as [c' [u|e]]; simpl; now rewrite <- app_assoc.
Qed.

(** ** Extraction *)

Lemma scan_row_spec (fid : Z) (name : string) (row : list cell) (acc : list content_value) :
  scan_row fid name row acc
  = (acc ++ map (entry_of fid name) (filter (fun c => truthy (value c)) row))%list.
Proof.
  revert acc. induction row as [|c row IH]; intros acc; simpl.
  - now rewrite app_nil_r.
  - rewrite IH. destruct (truthy (value c)); simpl; [|reflexivity].
    now rewrite <- app_assoc.
Qed.

Lemma scan_rows_spec (fid : Z) (name : string) (rows : list (list cell))
      (acc : list content_value) :
  scan_rows fid name rows acc
  = (acc ++ map (entry_of fid name) (filter (fun c => truthy (value c)) (concat rows)))%list.
Proof.
  revert acc. induction rows as [|row rows IH]; intros acc; simpl.
  - now rewrite app_nil_r.
  - rewrite IH, scan_row_spec, filter_app, map_app, app_assoc. reflexivity.
Qed.

Lemma getitem_found (pre post : workbook) (s : worksheet) :
  ~ In (title s) (sheetnames pre) -> getitem (pre ++ s :: post)%list (title s) = Ok s.
Proof.
  intros H. unfold getitem.
  assert (Hf : find (fun s0 => String.eqb (title s0) (title s)) (pre ++ s :: post)%list
               = Some s).
  { induction pre as [|x pre IH]; simpl.
    - now rewrite String.eqb_refl.
    - destruct (String.eqb (title x) (title s)) eqn:Hx.
      + apply String.eqb_eq in Hx. exfalso. apply H. simpl. now left.
      + apply IH. intros Hin. apply H. simpl. now right. }
  now rewrite Hf.
Qed.

Lemma collect_from (fid : Z) (pre post : workbook) (acc : list content_value) :
  NoDup (sheetnames (pre ++ post)%list) ->
  fold_left (fun cv name => scan_sheet fid (pre ++ post)%list name cv) (sheetnames post) acc
  = (acc ++ entries_of_workbook fid post)%list.
Proof.
  revert pre acc. induction post as [|s post IH]; intros pre acc Hnd; simpl.
  - now rewrite app_nil_r.
  - assert (Hs : ~ In (title s) (sheetnames pre)).
    { unfold sheetnames in *. rewrite map_app in Hnd. simpl in Hnd.
      apply NoDup_remove_2 in Hnd. intros Hin. apply Hnd, in_or_app. now left. }
    unfold scan_sheet at 2. rewrite (getitem_found pre post s Hs), scan_rows_spec.
    replace (pre ++ s :: post)%list with ((pre ++ [s]) ++ post)%list
      by (now rewrite <- app_assoc).
    rewrite IH by (now rewrite <- app_assoc).
    unfold entries_of_sheet. now rewrite <- app_assoc.
Qed.

(** The loops of [index_file] compute the entries described sheet by sheet. *)
Lemma collect_content_values_spec (fid : Z) (wb : workbook) :
  NoDup (sheetnames wb) -> collect_content_values fid wb = entries_of_workbook fid wb.
Proof.
  intros H. unfold collect_content_values. apply (collect_from fid [] wb [] H).
Qed.

Lemma files_reindexed (p : string) (mt ct : datetime) (wb : workbook) (d : db) :
  files (reindexed p mt ct wb d)
  = (filter (fun f => negb (has_path p f)) (files d)
       ++ [mk_file (next_rowid (map f_id (filter (fun f => negb (has_path p f)) (files d))))
                   p (adapt_datetime mt) (adapt_datetime ct)])%list.
Proof. unfold reindexed. now rewrite executemany_files. Qed.

Lemma content_reindexed (p : string) (mt ct : datetime) (wb : workbook) (d : db) :
  exists rows,
    content_index (reindexed p mt ct wb d) = (content_index d ++ rows)%list
    /\ map value_of_row rows
       = collect_content_values
           (next_rowid (map f_id (filter (fun f => negb (has_path p f)) (files d)))) wb.
Proof.
  unfold reindexed.
  match goal with
  | |- context [executemany ?vs ?d0] => destruct (executemany_content vs d0) as (rows & H & Hr)
  end.
  exists rows. split; [exact H | exact Hr].
Qed.

(** C9, as the code has it: a successful [index_file] appends to the
    committed rows, sheet after sheet and cell after cell, exactly one entry
    (sheet name, coordinate, [str] of the value) for every cell that was read
    and whose value is truthy, under the id of the new [files] row.  The cells
    read from a sheet are all its cells, or those of the rows handed out
    before the sheet failed; the sheets after a failing one are read all the
    same. *)
Theorem index_file_commits_truthy_cells (E : env) (conn : connection) (w : world)
        (p : string) (mt ct : datetime) (wb : workbook) :
  load_workbook E p = Ok wb -> (forall s, sql_fault E p s = None) ->
  pending conn = None -> NoDup (sheetnames wb) ->
  exists file_id,
    In file_id (map f_id (filter (has_path p)
                                 (files (committed (fst (index_file E conn w p mt ct))))))
    /\ map value_of_row (content_index (committed (fst (index_file E conn w p mt ct))))
       = (map value_of_row (content_index (committed conn))
            ++ flat_map (fun s =>
                           map (entry_of file_id (title s))
                               (filter (fun c => truthy (value c)) (concat (rows_read s))))
                        wb)%list.
Proof.
  intros Hl Hf Hp Hnd. rewrite (index_file_success E conn w p mt ct wb Hl Hf Hp). simpl.
  eexists. split.
  - rewrite files_reindexed, filter_app, map_app. apply in_or_app. right. simpl.
    unfold has_path at 1. simpl. rewrite String.eqb_refl. simpl. left. reflexivity.
  - destruct (content_reindexed p mt ct wb (committed conn)) as (rows & -> & Hr).
    rewrite map_app, Hr. now rewrite (collect_content_values_spec _ wb Hnd).
Qed.

Lemma index_file_commits_truthy_cells_witness :
  exists file_id,
    In file_id (map f_id (filter (has_path fileA)
                 (files (committed (fst (index_file torn_env (get_connection empty_db)
                                                    new_world fileA jan_2 jun_1))))))
    /\ map value_of_row
           (content_index (committed (fst (index_file torn_env (get_connection empty_db)
                                                      new_world fileA jan_2 jun_1))))
       = (map value_of_row (content_index (committed (get_connection empty_db)))
            ++ flat_map (fun s =>
                           map (entry_of file_id (title s))
                               (filter (fun c => truthy (value c)) (concat (rows_read s))))
                        torn_workbook)%list.
Proof.
  apply (index_file_commits_truthy_cells torn_env (get_connection empty_db) new_world
           fileA jan_2 jun_1 torn_workbook).
  - reflexivity.
  - intros s. reflexivity.
  - reflexivity.
  - repeat constructor; simpl; intuition discriminate.
Defined.

(** C9 as stated fails on a workbook whose second sheet breaks after its
    first row: B1 of the first sheet holds the number 0, a value that is not
    empty, and no entry is committed for it; and the sheet that failed is not
    skipped, the cell read before the failure is committed. *)
Lemma nonempty_cell_skipped_counterexample :
  ~ (forall s c, In s torn_workbook -> fails_at s = None ->
                 In c (concat (sheet_rows s)) -> value c <> PyNone ->
                 In (title s, coordinate c, py_str (value c))
                    (owned (committed (fst (index_file torn_env (get_connection empty_db)
                                                       new_world fileA jan_2 jun_1)))
                           fileA))
  /\ ~ (forall s e, In s torn_workbook -> fails_at s <> None ->
                    In e (owned (committed (fst (index_file torn_env (get_connection empty_db)
                                                            new_world fileA jan_2 jun_1)))
                                fileA) ->
                    fst (fst e) <> title s).
Proof.
  split.
  - intros H.
    specialize (H (mk_sheet "Summary"
                            [[mk_cell "A1" (PyStr "total"); mk_cell "B1" (PyInt 0)];
                             [mk_cell "A2" PyNone; mk_cell "B2" (PyInt 7)]] None)
                  (mk_cell "B1" (PyInt 0))).
    assert (Hin : In ("Summary", "B1", "0")
                     (owned (committed (fst (index_file torn_env (get_connection empty_db)
                                                        new_world fileA jan_2 jun_1)))
                            fileA)).
    { apply H; [simpl; now left | reflexivity | simpl; tauto | discriminate]. }
    vm_compute in Hin. intuition discriminate.
  - intros H.
    apply (H (mk_sheet "Data" [[mk_cell "A1" (PyStr "x")]; [mk_cell "A2" (PyStr "y")]]
                       (Some (1%nat, "unexpected end of data")))
             ("Data", "A1", "x")).
    + simpl. tauto.
    + discriminate.
    + vm_compute. tauto.
    + reflexivity.
Qed.

(** ** The run *)

Lemma has_path_other (p q : string) (f : file_row) :
  q <> p -> f_path f = p -> has_path q f = false.
Proof. intros Hne <-. unfold has_path. apply String.eqb_neq. congruence. Qed.

Lemma filter_has_path_other (p q : string) (l : list file_row) (row : file_row) :
  q <> p -> f_path row = p ->
  filter (has_path q) (filter (fun f => negb (has_path p f)) l ++ [row])%list
  = filter (has_path q) l.
Proof.
  intros Hne Hrow. rewrite filter_app. cbn [filter].
  rewrite (has_path_other p q row Hne Hrow), app_nil_r.
  induction l as [|f l IH]; [reflexivity|]. cbn [filter].
  destruct (has_path p f) eqn:Hp; cbn [negb filter].
  - apply String.eqb_eq in Hp. now rewrite (has_path_other p q f Hne Hp).
  - now rewrite IH.
Qed.

Lemma select_reindexed_other (p q : string) (mt ct : datetime) (wb : workbook) (d : db) :
  q <> p ->
  select_last_modified q (reindexed p mt ct wb d) = select_last_modified q d.
Proof.
  intros Hne. unfold select_last_modified. rewrite files_reindexed.
  rewrite filter_has_path_other; [reflexivity | exact Hne | reflexivity].
Qed.

Lemma has_record_reindexed_same (p : string) (mt ct : datetime) (wb : workbook) (d : db) :
  has_record p (reindexed p mt ct wb d) = true.
Proof.
  unfold has_record. rewrite files_reindexed, existsb_app.
  apply orb_true_iff. right. cbn [existsb]. unfold has_path. cbn [f_path].
  now rewrite String.eqb_refl.
Qed.

Lemma has_record_select (p : string) (d1 d2 : db) :
  select_last_modified p d1 = select_last_modified p d2 ->
  has_record p d1 = has_record p d2.
Proof.
  intros H. destruct (has_record p d2) eqn:H2.
  - destruct (has_record p d1) eqn:H1; [reflexivity|].
    apply select_last_modified_none in H1. rewrite H in H1.
    apply select_last_modified_none in H1. congruence.
  - apply select_last_modified_none in H2. rewrite <- H in H2.
    now apply select_last_modified_none.
Qed.

(** Indexing one path leaves what the detector reads for another path. *)
Lemma index_file_select_other (E : env) (conn : connection) (w : world) (p q : string)
      (mt ct : datetime) :
  pending conn = None -> q <> p ->
  select_last_modified q (committed (fst (index_file E conn w p mt ct)))
  = select_last_modified q (committed conn).
Proof.
  intros Hp Hne.
  destruct (index_file_cases E conn w p mt ct Hp) as [-> | (wb & _ & _ & ->)];
    [reflexivity | now apply select_reindexed_other].
Qed.

Lemma index_file_progress (E : env) (conn : connection) (w : world) (p : string)
      (mt ct : datetime) :
  w_progress (snd (index_file E conn w p mt ct)) = w_progress w.
Proof.
  unfold index_file. destruct (load_workbook E p); [|reflexivity].
  destruct (guarded E p SBegin _); [|reflexivity].
  destruct (transaction _ _ _ _ _ _) as [c' [u|e]]; reflexivity.
Qed.

Lemma view_committed (conn : connection) : pending conn = None -> view conn = committed conn.
Proof. unfold view. now intros ->. Qed.

(** The loop body: the file is handed to [index_file], after a progress
    report, exactly when the detector answers [True]. *)
Lemma process_file_spec (E : env) (total : Z) (ct : datetime) (i : Z) (p : string)
      (conn : connection) (w : world) :
  pending conn = None ->
  process_file E total ct i p (conn, w)
  = if needs_indexing E (committed conn) p
    then match getmtime E p with
         | Ok t => index_file E conn (report (percent i total) (indexing_label p) w) p t ct
         | Raise _ => (conn, w)
         end
    else (conn, w).
Proof.
  intros Hp. unfold process_file, needs_indexing.
  destruct (getmtime E p) as [t|e]; [|reflexivity].
  unfold get_connection. rewrite (connection_eta conn Hp).
  destruct (needs_update conn p t) as [[|]|e]; reflexivity.
Qed.

Lemma needs_indexing_select (E : env) (d1 d2 : db) (p : string) :
  select_last_modified p d1 = select_last_modified p d2 ->
  needs_indexing E d1 p = needs_indexing E d2 p.
Proof.
  intros H. unfold needs_indexing, needs_update, get_connection, view. simpl. now rewrite H.
Qed.

Lemma process_file_pending (E : env) (total : Z) (ct : datetime) (i : Z) (p : string)
      (conn : connection) (w : world) :
  pending conn = None -> pending (fst (process_file E total ct i p (conn, w))) = None.
Proof.
  intros Hp. rewrite (process_file_spec E total ct i p conn w Hp).
  destruct (needs_indexing E (committed conn) p); [|exact Hp].
  destruct (getmtime E p); [|exact Hp]. now apply index_file_pending.
Qed.

Lemma process_file_select_other (E : env) (total : Z) (ct : datetime) (i : Z) (p q : string)
      (conn : connection) (w : world) :
  pending conn = None -> q <> p ->
  select_last_modified q (committed (fst (process_file E total ct i p (conn, w))))
  = select_last_modified q (committed conn).
Proof.
  intros Hp Hne. rewrite (process_file_spec E total ct i p conn w Hp).
  destruct (needs_indexing E (committed conn) p); [|reflexivity].
  destruct (getmtime E p); [|reflexivity]. now apply index_file_select_other.
Qed.

Lemma process_file_progress (E : env) (total : Z) (ct : datetime) (i : Z) (p : string)
      (conn : connection) (w : world) :
  pending conn = None ->
  w_progress (snd (process_file E total ct i p (conn, w)))
  = (w_progress w
       ++ if needs_indexing E (committed conn) p then [report_of total (i, p)] else [])%list.
Proof.
  intros Hp. rewrite (process_file_spec E total ct i p conn w Hp).
  destruct (needs_indexing E (committed conn) p) eqn:Hn; [|now rewrite app_nil_r].
  destruct (getmtime E p) eqn:Hg.
  - now rewrite index_file_progress.
  - unfold needs_indexing in Hn. rewrite Hg in Hn. discriminate.
Qed.

Lemma process_files_progress (E : env) (total : Z) (ct : datetime) (paths : list string) :
  forall (i : Z) (conn : connection) (w : world),
    pending conn = None -> NoDup paths ->
    w_progress (snd (process_files E total ct i paths (conn, w)))
    = (w_progress w
         ++ map (report_of total)
                (filter (fun ip => needs_indexing E (committed conn) (snd ip))
                        (enumerate_from i paths)))%list.
Proof.
  induction paths as [|p paths IH]; intros i conn w Hp Hnd;
    cbn [process_files enumerate_from filter snd].
  - simpl. now rewrite app_nil_r.
  - inversion Hnd as [|? ? Hnotin Hnd']; subst.
    destruct (process_file E total ct i p (conn, w)) as [conn1 w1] eqn:Hstep.
    pose proof (process_file_pending E total ct i p conn w Hp) as Hp1.
    pose proof (process_file_progress E total ct i p conn w Hp) as Hw1.
    rewrite Hstep in Hp1, Hw1. simpl in Hp1, Hw1.
    rewrite (IH (i + 1)%Z conn1 w1 Hp1 Hnd'), Hw1, <- app_assoc. f_equal.
    assert (Hsame : forall j,
               filter (fun ip => needs_indexing E (committed conn1) (snd ip))
                      (enumerate_from j paths)
               = filter (fun ip => needs_indexing E (committed conn) (snd ip))
                        (enumerate_from j paths)).
    { intros j. apply filter_ext_in. intros [k q] Hin. simpl.
      apply needs_indexing_select.
      assert (Hq : In q paths).
      { clear -Hin. revert j Hin. induction paths as [|x paths IHp]; intros j Hin;
          [contradiction|]. simpl in Hin. destruct Hin as [Heq | Hin].
        - injection Heq as _ ->. now left.
        - right. now apply (IHp (j + 1)%Z). }
      pose proof (process_file_select_other E total ct i p q conn w Hp) as Hsel.
      rewrite Hstep in Hsel. apply Hsel. intros ->. contradiction. }
    rewrite Hsame. destruct (needs_indexing E (committed conn) p); reflexivity.
Qed.

(** C6, as the code has it: over candidates with distinct paths, the
    progress callback is invoked once for each candidate [i] for which the
    change detector answers [True], in enumeration order, with the percentage
    [floor((i+1)*100/total)] and a label naming the file, for no other
    candidate, and once more at the end with 100 and the completion label. *)
Theorem update_index_progress (E : env) (d : db) (w : world) (folder_path : string) :
  NoDup (excel_files E folder_path) ->
  w_progress (snd (update_index E d w folder_path))
  = (w_progress w
       ++ map (fun ip => (((fst ip + 1) * 100 / Z.of_nat (length (excel_files E folder_path)))%Z,
                          ("正在索引: " ++ basename (snd ip))%string))
              (filter (fun ip => needs_indexing E d (snd ip))
                      (enumerate_from 0 (excel_files E folder_path)))
       ++ [(100%Z, "索引完成")])%list.
Proof.
  intros Hnd. unfold update_index.
  pose proof (process_files_progress E (Z.of_nat (length (excel_files E folder_path)))
                (now E (w_clock w)) (excel_files E folder_path) 0 (get_connection d)
                (tick w) eq_refl Hnd) as H.
  destruct (process_files _ _ _ _ _ _) as [conn w']. simpl in *.
  rewrite H, <- app_assoc. reflexivity.
Qed.

Lemma update_index_progress_witness :
  w_progress (snd (update_index invoice_env indexed_db new_world "/data"))
  = (w_progress new_world
       ++ map (fun ip => (((fst ip + 1) * 100
                           / Z.of_nat (length (excel_files invoice_env "/data")))%Z,
                          ("正在索引: " ++ basename (snd ip))%string))
              (filter (fun ip => needs_indexing invoice_env indexed_db (snd ip))
                      (enumerate_from 0 (excel_files invoice_env "/data")))
       ++ [(100%Z, "索引完成")])%list.
Proof.
  apply (update_index_progress invoice_env indexed_db new_world "/data").
  vm_compute. repeat constructor; simpl; intuition discriminate.
Defined.

(** C6 as stated fails: after a first run [fileA] is indexed with its
    current modification time, and a second run over the folder makes no
    progress report that names it. *)
Lemma progress_counterexample :
  ~ In (percent 0 2, indexing_label fileA)
       (w_progress (snd (update_index invoice_env indexed_db new_world "/data")))
  /\ excel_files invoice_env "/data" = [fileA; fileB]
  /\ w_progress (snd (update_index invoice_env indexed_db new_world "/data"))
     = [(100%Z, indexing_label fileB); (100%Z, done_label)].
Proof.
  split; [|split]; [|reflexivity|reflexivity].
  vm_compute. intros [H | [H | []]]; discriminate.
Qed.

(** ** Running twice *)

Lemma process_file_settled (E : env) (total : Z) (ct : datetime) (i : Z) (p : string)
      (conn : connection) (w : world) :
  pending conn = None -> settled E (committed conn) p ->
  fst (process_file E total ct i p (conn, w)) = conn.
Proof.
  intros Hp Hs. unfold process_file.
  destruct (getmtime E p) as [t|e] eqn:Hg; [|reflexivity].
  destruct Hs as [[e He] | [Hr | Hi]]; [congruence | |].
  - rewrite <- (view_committed conn Hp) in Hr.
    destruct (needs_update_record conn p t Hr) as [e ->]. reflexivity.
  - destruct (needs_update conn p t) as [[|]|e]; try reflexivity.
    now apply index_file_not_indexable.
Qed.

Lemma process_file_settles (E : env) (total : Z) (ct : datetime) (i : Z) (p : string)
      (conn : connection) (w : world) :
  pending conn = None ->
  settled E (committed (fst (process_file E total ct i p (conn, w)))) p.
Proof.
  intros Hp. unfold process_file, settled.
  destruct (getmtime E p) as [t|e] eqn:Hg; [|left; eauto].
  destruct (has_record p (committed conn)) eqn:Hr.
  - rewrite <- (view_committed conn Hp) in Hr.
    destruct (needs_update_record conn p t Hr) as [e ->]. simpl.
    rewrite <- (view_committed conn Hp). auto.
  - rewrite <- (view_committed conn Hp) in Hr.
    rewrite (needs_update_no_record conn p t Hr).
    destruct (indexable E p) eqn:Hi.
    + apply indexable_spec in Hi as (wb & Hl & Hf).
      rewrite (index_file_success E conn _ p t ct wb Hl Hf Hp). simpl.
      right. left. apply has_record_reindexed_same.
    + right. right. reflexivity.
Qed.

Lemma process_file_keeps_settled (E : env) (total : Z) (ct : datetime) (i : Z) (p q : string)
      (conn : connection) (w : world) :
  pending conn = None -> settled E (committed conn) q ->
  settled E (committed (fst (process_file E total ct i p (conn, w)))) q.
Proof.
  intros Hp Hs. destruct (string_dec q p) as [->|Hne].
  - now apply process_file_settles.
  - destruct Hs as [He | [Hr | Hi]]; [now left | | now right; right].
    right. left. rewrite <- Hr. apply has_record_select.
    now apply process_file_select_other.
Qed.

Lemma process_files_settle (E : env) (total : Z) (ct : datetime) (paths : list string) :
  forall (i : Z) (conn : connection) (w : world),
    pending conn = None ->
    pending (fst (process_files E total ct i paths (conn, w))) = None
    /\ (forall q, settled E (committed conn) q \/ In q paths ->
                  settled E (committed (fst (process_files E total ct i paths (conn, w)))) q).
Proof.
  induction paths as [|p paths IH]; intros i conn w Hp; cbn [process_files].
  - split; [exact Hp|]. intros q [H | []]. exact H.
  - destruct (process_file E total ct i p (conn, w)) as [conn1 w1] eqn:Hstep.
    pose proof (process_file_pending E total ct i p conn w Hp) as Hp1.
    rewrite Hstep in Hp1. simpl in Hp1.
    destruct (IH (i + 1)%Z conn1 w1 Hp1) as [Hpend Hall]. split; [exact Hpend|].
    intros q [Hs | [<- | Hin]]; apply Hall.
    + left. pose proof (process_file_keeps_settled E total ct i p q conn w Hp Hs) as H.
      now rewrite Hstep in H.
    + left. pose proof (process_file_settles E total ct i p conn w Hp) as H.
      now rewrite Hstep in H.
    + now right.
Qed.

Lemma process_files_settled (E : env) (total : Z) (ct : datetime) (paths : list string) :
  forall (i : Z) (conn : connection) (w : world),
    pending conn = None ->
    (forall p, In p paths -> settled E (committed conn) p) ->
    fst (process_files E total ct i paths (conn, w)) = conn.
Proof.
  induction paths as [|p paths IH]; intros i conn w Hp Hall; cbn [process_files].
  - reflexivity.
  - pose proof (process_file_settled E total ct i p conn w Hp (Hall p (or_introl eq_refl)))
      as Hstep.
    destruct (process_file E total ct i p (conn, w)) as [conn1 w1]. simpl in Hstep. subst conn1.
    apply IH; [exact Hp|]. intros q Hq. apply Hall. now right.
Qed.

(** C4: a second run over the same folder, with the file system as it was
    for the first run (same files, same modification times, same contents),
    leaves the database exactly as the first run left it, both tables, row
    for row. *)
Theorem update_index_idempotent (E : env) (d : db) (w w' : world) (folder_path : string) :
  fst (update_index E (fst (update_index E d w folder_path)) w' folder_path)
  = fst (update_index E d w folder_path).
Proof.
  unfold update_index at 2 3.
  destruct (process_files_settle E (Z.of_nat (length (excel_files E folder_path)))
              (now E (w_clock w)) (excel_files E folder_path) 0 (get_connection d)
              (tick w) eq_refl) as [Hpend Hall].
  destruct (process_files E _ (now E (w_clock w)) 0 _ (get_connection d, tick w))
    as [conn1 w1]. simpl in Hpend, Hall. cbn [fst].
  unfold update_index.
  pose proof (process_files_settled E (Z.of_nat (length (excel_files E folder_path)))
                (now E (w_clock w')) (excel_files E folder_path) 0
                (get_connection (committed conn1)) (tick w') eq_refl) as H.
  destruct (process_files E _ (now E (w_clock w')) 0 _ _) as [conn2 w2].
  simpl in H. cbn [fst]. rewrite H; [reflexivity|].
  intros p Hin. apply Hall. now right.
Qed.

(** ** A first run over a folder with one unreadable file *)

Lemma next_rowid_gt (ids : list Z) (x : Z) : In x ids -> (x < next_rowid ids)%Z.
Proof.
  unfold next_rowid. induction ids as [|a ids IH]; cbn [fold_right In]; [contradiction|].
  intros [-> | H]; [lia | specialize (IH H); lia].
Qed.

Lemma flat_map_nil {A B : Type} (f : A -> list B) (l : list A) :
  (forall x, In x l -> f x = []) -> flat_map f l = [].
Proof.
  induction l as [|x l IH]; intros H; simpl; [reflexivity|].
  rewrite (H x (or_introl eq_refl)), IH; [reflexivity|]. intros y Hy. apply H. now right.
Qed.

Lemma flat_map_single {A B : Type} (f : A -> list B) (g : A -> B) (l : list A) :
  (forall x, In x l -> f x = [g x]) -> flat_map f l = map g l.
Proof.
  induction l as [|x l IH]; intros H; simpl; [reflexivity|].
  rewrite (H x (or_introl eq_refl)), IH; [reflexivity|]. intros y Hy. apply H. now right.
Qed.

(** The rows of [files] a content row joins with, kept to the path [p]. *)
Lemma joined_other (p q : string) (l : list file_row) (row : file_row) (ci : content_row) :
  q <> p -> f_path row = p ->
  filter (fun f => has_path q f && (c_file_id ci =? f_id f)%Z)
         (filter (fun f => negb (has_path p f)) l ++ [row])%list
  = filter (fun f => has_path q f && (c_file_id ci =? f_id f)%Z) l.
Proof.
  intros Hne Hrow. rewrite filter_app. cbn [filter].
  rewrite (has_path_other p q row Hne Hrow). cbn [andb]. rewrite app_nil_r.
  induction l as [|f l IH]; [reflexivity|]. cbn [filter].
  destruct (has_path p f) eqn:Hp; cbn [negb filter].
  - apply String.eqb_eq in Hp. now rewrite (has_path_other p q f Hne Hp).
  - now rewrite IH.
Qed.

Lemma collect_file_id (fid : Z) (wb : workbook) :
  Forall (fun v => v_file_id v = fid) (collect_content_values fid wb).
Proof.
  unfold collect_content_values.
  assert (H : forall names acc,
             Forall (fun v => v_file_id v = fid) acc ->
             Forall (fun v => v_file_id v = fid)
                    (fold_left (fun cv name => scan_sheet fid wb name cv) names acc)).
  { induction names as [|name names IH]; intros acc Hacc; simpl; [exact Hacc|].
    apply IH. unfold scan_sheet. destruct (getitem wb name); [|exact Hacc].
    rewrite scan_rows_spec. apply Forall_app. split; [exact Hacc|].
    apply Forall_forall. intros v Hv. apply in_map_iff in Hv as (c & <- & _). reflexivity. }
  apply H. constructor.
Qed.

Lemma new_rows_file_id (fid : Z) (wb : workbook) (rows : list content_row) :
  map value_of_row rows = collect_content_values fid wb ->
  forall ci, In ci rows -> c_file_id ci = fid.
Proof.
  intros H ci Hci. pose proof (collect_file_id fid wb) as Hall. rewrite <- H in Hall.
  rewrite Forall_forall in Hall. apply (Hall (value_of_row ci)). now apply in_map.
Qed.

Lemma joined_none (q : string) (fid : Z) (l : list file_row) :
  (forall f, In f l -> has_path q f = true -> f_id f <> fid) ->
  filter (fun f => has_path q f && (fid =? f_id f)%Z) l = [].
Proof.
  induction l as [|f l IH]; intros H; [reflexivity|]. cbn [filter].
  rewrite IH by (intros g Hg; apply H; now right).
  destruct (has_path q f) eqn:Hq; [|reflexivity].
  destruct (Z.eqb_spec fid (f_id f)) as [Heq|_]; [|reflexivity].
  exfalso. now apply (H f (or_introl eq_refl) Hq).
Qed.

Lemma kept_id_lt (p : string) (l : list file_row) (f : file_row) :
  In f l -> has_path p f = false ->
  (f_id f < next_rowid (map f_id (filter (fun f0 => negb (has_path p f0)) l)))%Z.
Proof.
  intros Hin Hp. apply next_rowid_gt, in_map, filter_In. split; [exact Hin | now rewrite Hp].
Qed.

(** Replacing the rows of [p] leaves every other path the rows it owns. *)
Lemma owned_reindexed_other (p q : string) (mt ct : datetime) (wb : workbook) (d : db) :
  q <> p -> owned (reindexed p mt ct wb d) q = owned d q.
Proof.
  intros Hne. unfold owned. rewrite files_reindexed.
  destruct (content_reindexed p mt ct wb d) as (rows & -> & Hrows).
  rewrite flat_map_app.
  rewrite (flat_map_nil _ rows).
  - rewrite app_nil_r. apply flat_map_ext. intros ci.
    rewrite joined_other; [reflexivity | exact Hne | reflexivity].
  - intros ci Hci. rewrite joined_other; [|exact Hne | reflexivity].
    rewrite (new_rows_file_id _ wb rows Hrows ci Hci).
    rewrite joined_none; [reflexivity|].
    intros f Hf Hq Heq.
    assert (Hp : has_path p f = false).
    { apply (has_path_other q p f); [congruence|]. now apply String.eqb_eq in Hq. }
    pose proof (kept_id_lt p (files d) f Hf Hp). lia.
Qed.

Lemma kept_all (p : string) (d : db) :
  has_record p d = false -> filter (fun f => negb (has_path p f)) (files d) = files d.
Proof.
  unfold has_record. induction (files d) as [|f l IH]; [reflexivity|]. cbn [existsb filter].
  intros H. apply orb_false_iff in H as [Hf Hl]. rewrite Hf. cbn [negb]. now rewrite IH.
Qed.

Lemma no_record_no_path (p : string) (d : db) (f : file_row) :
  has_record p d = false -> In f (files d) -> has_path p f = false.
Proof.
  unfold has_record. intros H Hin. destruct (has_path p f) eqn:Hp; [|reflexivity].
  assert (existsb (has_path p) (files d) = true) by (apply existsb_exists; eauto).
  congruence.
Qed.

(** A path without a record comes to own exactly its extraction. *)
Lemma owned_reindexed_fresh (p : string) (mt ct : datetime) (wb : workbook) (d : db) :
  has_record p d = false -> references_ok d ->
  owned (reindexed p mt ct wb d) p
  = map entry_of_value (collect_content_values (next_rowid (map f_id (files d))) wb).
Proof.
  intros Hfresh Href. unfold owned. rewrite files_reindexed.
  destruct (content_reindexed p mt ct wb d) as (rows & -> & Hrows).
  rewrite (kept_all p d Hfresh) in *. rewrite flat_map_app.
  set (fid := next_rowid (map f_id (files d))) in *.
  set (row := mk_file fid p (adapt_datetime mt) (adapt_datetime ct)).
  assert (Hjoin : forall ci,
             filter (fun f => has_path p f && (c_file_id ci =? f_id f)%Z) (files d ++ [row])%list
             = if (c_file_id ci =? fid)%Z then [row] else []).
  { intros ci. rewrite filter_app.
    rewrite (joined_none p (c_file_id ci) (files d)).
    - cbn [filter app]. unfold has_path at 1. cbn [f_path f_id row].
      rewrite String.eqb_refl. cbn [andb]. now destruct (c_file_id ci =? fid)%Z.
    - intros f Hf Hp. rewrite (no_record_no_path p d f Hfresh Hf) in Hp. discriminate. }
  rewrite (flat_map_nil _ (content_index d)).
  - cbn [app]. rewrite (flat_map_single _ entry_of_row rows).
    + rewrite <- Hrows, map_map. apply map_ext. intros ci. reflexivity.
    + intros ci Hci. rewrite Hjoin, (new_rows_file_id fid wb rows Hrows ci Hci), Z.eqb_refl.
      reflexivity.
  - intros ci Hci. rewrite Hjoin. destruct (Href ci Hci) as (f & Hf & Hid).
    pose proof (next_rowid_gt (map f_id (files d)) (f_id f) (in_map f_id _ _ Hf)) as Hlt.
    fold fid in Hlt. destruct (Z.eqb_spec (c_file_id ci) fid); [lia | reflexivity].
Qed.

Lemma references_ok_reindexed_fresh (p : string) (mt ct : datetime) (wb : workbook) (d : db) :
  has_record p d = false -> references_ok d -> references_ok (reindexed p mt ct wb d).
Proof.
  intros Hfresh Href ci Hci. rewrite files_reindexed.
  destruct (content_reindexed p mt ct wb d) as (rows & Hc & Hrows). rewrite Hc in Hci.
  rewrite (kept_all p d Hfresh) in *. apply in_app_or in Hci as [Hold | Hnew].
  - destruct (Href ci Hold) as (f & Hf & Hid). exists f. split; [|exact Hid].
    apply in_or_app. now left.
  - eexists. split; [apply in_or_app; right; left; reflexivity|]. cbn [f_id].
    symmetry. exact (new_rows_file_id _ wb rows Hrows ci Hnew).
Qed.

Lemma error_line_names_file (t : datetime) (p : string) (e : exn) :
  is_substring p (error_line t p e).
Proof.
  unfold error_line, is_substring.
  exists (isoformat t ++ ": 文件 "), (" 索引失败: " ++ e ++ String (ascii_of_nat 10) "").
  now rewrite append_assoc.
Qed.

Section FirstRun.

Variable E : env.
Variable total : Z.
Variable ct : datetime.
Variable bad : string.
Variable e_bad : exn.
Hypothesis bad_unreadable : load_workbook E bad = Raise e_bad.

Lemma process_file_corrupt (i : Z) (conn : connection) (w : world) (t : datetime) :
  pending conn = None -> has_record bad (committed conn) = false ->
  getmtime E bad = Ok t ->
  process_file E total ct i bad (conn, w)
  = (conn, log_failure E bad e_bad (report (percent i total) (indexing_label bad) w)).
Proof.
  intros Hp Hr Hg. unfold process_file. rewrite Hg.
  rewrite <- (view_committed conn Hp) in Hr.
  rewrite (needs_update_no_record conn bad t Hr).
  unfold index_file. now rewrite bad_unreadable.
Qed.

Lemma process_file_valid (i : Z) (conn : connection) (w : world) (p : string)
      (t : datetime) (wb : workbook) :
  pending conn = None -> has_record p (committed conn) = false ->
  getmtime E p = Ok t -> load_workbook E p = Ok wb -> (forall s, sql_fault E p s = None) ->
  process_file E total ct i p (conn, w)
  = (mk_conn (reindexed p t ct wb (committed conn)) None,
     note (Closed p) (note (Opened p) (report (percent i total) (indexing_label p) w))).
Proof.
  intros Hp Hr Hg Hl Hf. unfold process_file. rewrite Hg.
  rewrite <- (view_committed conn Hp) in Hr.
  rewrite (needs_update_no_record conn p t Hr).
  now apply index_file_success.
Qed.

Lemma process_files_first_run (paths : list string) :
  forall (i : Z) (conn : connection) (w : world),
    pending conn = None -> references_ok (committed conn) -> NoDup paths ->
    (forall p, In p paths -> has_record p (committed conn) = false) ->
    (forall p, In p paths -> exists t, getmtime E p = Ok t) ->
    (forall p, In p paths -> p <> bad -> indexable E p = true) ->
    (forall q, ~ In q paths ->
               owned (committed (fst (process_files E total ct i paths (conn, w)))) q
               = owned (committed conn) q
               /\ has_record q (committed (fst (process_files E total ct i paths (conn, w))))
                  = has_record q (committed conn))
    /\ (forall p wb, In p paths -> load_workbook E p = Ok wb ->
                     has_record p (committed (fst (process_files E total ct i paths (conn, w))))
                     = true
                     /\ exists fid,
                         owned (committed (fst (process_files E total ct i paths (conn, w)))) p
                         = map entry_of_value (collect_content_values fid wb))
    /\ (In bad paths ->
        exists line, w_log (snd (process_files E total ct i paths (conn, w)))
                     = (w_log w ++ [line])%list
                     /\ is_substring bad line)
    /\ (~ In bad paths ->
        w_log (snd (process_files E total ct i paths (conn, w))) = w_log w).
Proof.
  induction paths as [|p paths IH]; intros i conn w Hp Href Hnd Hfresh Hmt Hval;
    cbn [process_files].
  - repeat split; try reflexivity; intros; contradiction.
  - inversion Hnd as [|? ? Hnotin Hnd']; subst.
    destruct (Hmt p (or_introl eq_refl)) as [t Hg].
    pose proof (Hfresh p (or_introl eq_refl)) as Hr.
    destruct (string_dec p bad) as [->|Hne].
    + rewrite (process_file_corrupt i conn w t Hp Hr Hg).
      destruct (IH (i + 1)%Z conn
                   (log_failure E bad e_bad (report (percent i total) (indexing_label bad) w))
                   Hp Href Hnd'
                   (fun q Hq => Hfresh q (or_intror Hq))
                   (fun q Hq => Hmt q (or_intror Hq))
                   (fun q Hq => Hval q (or_intror Hq)))
        as (Hout & Hin & _ & Hlog).
      split; [|split; [|split]].
      * intros q Hq. apply Hout. intros H. apply Hq. now right.
      * intros q wb [<- | Hq] Hl; [congruence | now apply Hin].
      * intros _. eexists. split; [rewrite (Hlog Hnotin); reflexivity|].
        apply error_line_names_file.
      * intros H. exfalso. apply H. now left.
    + assert (Hi : indexable E p = true) by (apply Hval; [now left | exact Hne]).
      apply indexable_spec in Hi as (wb & Hl & Hf).
      rewrite (process_file_valid i conn w p t wb Hp Hr Hg Hl Hf).
      set (conn1 := mk_conn (reindexed p t ct wb (committed conn)) None).
      set (w1 := note (Closed p) (note (Opened p)
                   (report (percent i total) (indexing_label p) w))).
      assert (Hfresh1 : forall q, In q paths -> has_record q (committed conn1) = false).
      { intros q Hq. rewrite <- (Hfresh q (or_intror Hq)). apply has_record_select.
        apply select_reindexed_other. intros ->. contradiction. }
      destruct (IH (i + 1)%Z conn1 w1 eq_refl
                   (references_ok_reindexed_fresh p t ct wb (committed conn) Hr Href)
                   Hnd' Hfresh1
                   (fun q Hq => Hmt q (or_intror Hq))
                   (fun q Hq => Hval q (or_intror Hq)))
        as (Hout & Hin & Hlog1 & Hlog2).
      split; [|split; [|split]].
      * intros q Hq.
        assert (Hqp : q <> p) by (intros ->; apply Hq; now left).
        assert (Hq' : ~ In q paths) by (intros H; apply Hq; now right).
        destruct (Hout q Hq') as [Ho Hh]. split.
        -- rewrite Ho. now apply owned_reindexed_other.
        -- rewrite Hh. apply has_record_select. now apply select_reindexed_other.
      * intros q wb' [<- | Hq] Hl'; [|now apply Hin].
        destruct (Hout p Hnotin) as [Ho Hh]. rewrite Ho, Hh.
        assert (wb' = wb) by congruence. subst wb'. split.
        -- apply has_record_reindexed_same.
        -- eexists. now apply owned_reindexed_fresh.
      * intros [-> | H]; [congruence | exact (Hlog1 H)].
      * intros H. apply Hlog2. intros H'. apply H. now right.
Qed.

End FirstRun.

(** C7: a first run (no candidate has a record yet) over a folder whose
    candidates all open except one indexes every readable document (each
    gets its [files] row and owns exactly the entries extracted from it),
    appends exactly one line to the error log, a line naming the unreadable
    document, and ends with the report of 100 and completion. *)
Theorem update_index_one_corrupt (E : env) (d : db) (w : world) (folder_path bad : string)
        (e : exn) :
  NoDup (excel_files E folder_path) ->
  In bad (excel_files E folder_path) ->
  load_workbook E bad = Raise e ->
  (forall p, In p (excel_files E folder_path) -> exists t, getmtime E p = Ok t) ->
  (forall p, In p (excel_files E folder_path) -> p <> bad -> indexable E p = true) ->
  (forall p, In p (excel_files E folder_path) -> has_record p d = false) ->
  references_ok d ->
  (forall p wb, In p (excel_files E folder_path) -> load_workbook E p = Ok wb ->
                has_record p (fst (update_index E d w folder_path)) = true
                /\ exists fid, owned (fst (update_index E d w folder_path)) p
                               = map entry_of_value (collect_content_values fid wb))
  /\ (exists line, w_log (snd (update_index E d w folder_path)) = (w_log w ++ [line])%list
                   /\ is_substring bad line)
  /\ (exists earlier, w_progress (snd (update_index E d w folder_path))
                      = (earlier ++ [(100%Z, "索引完成")])%list).
Proof.
  intros Hnd Hbad Hload Hmt Hval Hfresh Href.
  destruct (process_files_first_run E (Z.of_nat (length (excel_files E folder_path)))
              (now E (w_clock w)) bad e Hload (excel_files E folder_path) 0
              (get_connection d) (tick w) eq_refl Href Hnd Hfresh Hmt Hval)
    as (_ & Hin & Hlog & _).
  unfold update_index.
  destruct (process_files E _ _ 0 _ _) as [conn w']. cbn [fst snd] in *.
  split; [exact Hin|]. split; [exact (Hlog Hbad)|].
  exists (w_progress w'). reflexivity.
Qed.

Lemma update_index_one_corrupt_witness :
  (forall p wb, In p (excel_files invoice_env "/data") -> load_workbook invoice_env p = Ok wb ->
                has_record p (fst (update_index invoice_env empty_db new_world "/data")) = true
                /\ exists fid, owned (fst (update_index invoice_env empty_db new_world "/data")) p
                               = map entry_of_value (collect_content_values fid wb))
  /\ (exists line, w_log (snd (update_index invoice_env empty_db new_world "/data"))
                   = (w_log new_world ++ [line])%list
                   /\ is_substring fileB line)
  /\ (exists earlier, w_progress (snd (update_index invoice_env empty_db new_world "/data"))
                      = (earlier ++ [(100%Z, "索引完成")])%list).
Proof.
  apply (update_index_one_corrupt invoice_env empty_db new_world "/data" fileB
           "File is not a zip file").
  - vm_compute. repeat constructor; simpl; intuition discriminate.
  - vm_compute. right. left. reflexivity.
  - reflexivity.
  - intros p _. exists jan_2. reflexivity.
  - intros p Hp Hne. vm_compute in Hp. destruct Hp as [<- | [<- | []]].
    + reflexivity.
    + now contradiction Hne.
  - intros p _. reflexivity.
  - intros ci [].
Defined.

(** * Further properties of the code *)

(** ** The scanner *)

Lemma rev_string_acc (s acc : string) : rev_string s acc = rev_string s "" ++ acc.
Proof.
  revert acc. induction s as [|c s IH]; intros acc; simpl; [reflexivity|].
  rewrite (IH (String c acc)), (IH (String c "")), append_assoc. reflexivity.
Qed.

Lemma rev_string_app (a b : string) :
  rev_string (a ++ b) "" = rev_string b "" ++ rev_string a "".
Proof.
  induction a as [|c a IH]; simpl.
  - now rewrite append_empty_r.
  - rewrite (rev_string_acc (a ++ b)), (rev_string_acc a), IH, append_assoc. reflexivity.
Qed.

Lemma rev_string_involutive (s : string) : rev_string (rev_string s "") "" = s.
Proof.
  induction s as [|c s IH]; simpl; [reflexivity|].
  rewrite (rev_string_acc s), rev_string_app, IH. reflexivity.
Qed.

Lemma endswith_spec (s suf : string) :
  endswith s suf = true <-> exists pre, s = pre ++ suf.
Proof.
  unfold endswith. rewrite startswith_spec. split.
  - intros [post H]. exists (rev_string post "").
    rewrite <- (rev_string_involutive s), H, rev_string_app, rev_string_involutive.
    reflexivity.
  - intros [pre ->]. exists (rev_string pre ""). apply rev_string_app.
Qed.

Lemma is_candidate_spec (filename : string) :
  is_candidate filename = true
  <-> ((exists stem, filename = stem ++ ".xlsx") \/ (exists stem, filename = stem ++ ".xlsm"))
      /\ ~ (exists rest, filename = "~$" ++ rest).
Proof.
  unfold is_candidate.
  rewrite andb_true_iff, orb_true_iff, negb_true_iff, !endswith_spec.
  rewrite <- not_true_iff_false, startswith_spec. reflexivity.
Qed.

(** The scan of [update_index] returns exactly the joined paths of the file
    names found by the walk that end in [.xlsx] or [.xlsm] (in lower case,
    as written) and do not begin with [~$]; other files and Excel's lock
    files are never candidates. *)
Theorem excel_files_spec (E : env) (folder_path p : string) :
  In p (excel_files E folder_path)
  <-> exists dirpath filenames filename,
        In (dirpath, filenames) (walk E folder_path)
        /\ In filename filenames
        /\ p = path_join dirpath filename
        /\ ((exists stem, filename = stem ++ ".xlsx")
            \/ (exists stem, filename = stem ++ ".xlsm"))
        /\ ~ (exists rest, filename = "~$" ++ rest).
Proof.
  unfold excel_files. rewrite in_flat_map. split.
  - intros ([dirpath filenames] & Hd & Hp). simpl in Hp.
    apply in_map_iff in Hp as (filename & <- & Hf). apply filter_In in Hf as [Hf Hc].
    apply is_candidate_spec in Hc as [Hs Hl]. now exists dirpath, filenames, filename.
  - intros (dirpath & filenames & filename & Hd & Hf & -> & Hs & Hl).
    exists (dirpath, filenames). split; [exact Hd|]. simpl. apply in_map, filter_In.
    split; [exact Hf | now apply is_candidate_spec].
Qed.

Lemma basename_from_plain (f acc : string) :
  no_char "/" f = true -> basename_from f acc = acc ++ f.
Proof.
  revert acc. induction f as [|c f IH]; intros acc H; simpl.
  - now rewrite append_empty_r.
  - simpl in H. apply andb_true_iff in H as [Hc Hf]. apply negb_true_iff in Hc.
    rewrite Hc, (IH _ Hf), append_assoc. reflexivity.
Qed.

Lemma basename_from_slash (x f acc : string) :
  no_char "/" f = true -> basename_from (x ++ "/" ++ f) acc = f.
Proof.
  intros Hf. revert acc. induction x as [|c x IH]; intros acc.
  - simpl. now rewrite basename_from_plain.
  - simpl. destruct (Ascii.eqb c "/"); apply IH.
Qed.

(** A file name as the walk lists it (no slash in it) is what the progress
    label shows: [basename] undoes [os.path.join], whatever the directory. *)
Theorem basename_path_join (dirpath filename : string) :
  no_char "/" filename = true -> basename (path_join dirpath filename) = filename.
Proof.
  intros Hf. unfold path_join, basename.
  assert (Hs : startswith filename "/" = false).
  { destruct filename as [|c f]; [reflexivity|]. cbn [no_char] in Hf. cbn [startswith].
    destruct (Ascii.eqb_spec "/" c) as [<-|_]; [|reflexivity].
    rewrite Ascii.eqb_refl in Hf. discriminate. }
  rewrite Hs. destruct (String.eqb_spec dirpath "") as [->|Hne]; simpl orb.
  - simpl. now rewrite basename_from_plain.
  - destruct (endswith dirpath "/") eqn:He.
    + apply endswith_spec in He as [pre ->]. rewrite append_assoc.
      now apply basename_from_slash.
    + now apply basename_from_slash.
Qed.

Lemma basename_path_join_witness :
  basename (path_join "/data/2024" "fileA.xlsx") = "fileA.xlsx".
Proof. apply (basename_path_join "/data/2024" "fileA.xlsx"). reflexivity. Defined.

(** ** The change detector *)

(** [needs_update] answers [True] exactly for a path without a row in
    [files], and never answers [False]: for a path with a row the comparison
    raises. *)
Theorem needs_update_never_false (c : connection) (p : string) (t : datetime) :
  (needs_update c p t = Ok true <-> has_record p (view c) = false)
  /\ needs_update c p t <> Ok false.
Proof.
  destruct (has_record p (view c)) eqn:Hr.
  - destruct (needs_update_record c p t Hr) as [e ->]. split; [split|]; discriminate.
  - rewrite (needs_update_no_record c p t Hr). split; [split; reflexivity | discriminate].
Qed.

(** ** One file *)

Lemma has_path_refl (id : Z) (p : string) (m i : sqlval) : has_path p (mk_file id p m i) = true.
Proof. unfold has_path. simpl. apply String.eqb_refl. Qed.

(** [index_file] on a connection without an open transaction is all or
    nothing.  Either nothing changed in the store and one line naming the
    file was appended to the error log; or the log is as it was and the path
    has exactly one row in [files], which carries the modification time and
    the time of the run as ISO text. *)
Theorem index_file_all_or_nothing (E : env) (conn : connection) (w : world) (p : string)
        (mt ct : datetime) :
  pending conn = None ->
  (fst (index_file E conn w p mt ct) = conn
   /\ exists e, w_log (snd (index_file E conn w p mt ct))
                = (w_log w ++ [error_line (now E (w_clock w)) p e])%list)
  \/ (pending (fst (index_file E conn w p mt ct)) = None
      /\ w_log (snd (index_file E conn w p mt ct)) = w_log w
      /\ exists file_id,
          filter (has_path p) (files (committed (fst (index_file E conn w p mt ct))))
          = [mk_file file_id p (SqlText (isoformat mt)) (SqlText (isoformat ct))]).
Proof.
  intros Hp. unfold index_file.
  destruct (load_workbook E p) as [wb|e]; [|left; split; [reflexivity | now exists e]].
  destruct (guarded E p SBegin (begin_transaction conn)) as [c|e] eqn:Hb;
    [|left; split; [reflexivity | now exists e]].
  unfold guarded in Hb. destruct (sql_fault E p SBegin); [discriminate|].
  apply begin_transaction_ok in Hb as [_ ->].
  destruct (transaction _ _ _ _ _ _) as [c' [u|e]] eqn:Ht.
  - right. apply transaction_result in Ht as ->. cbn [fst snd committed pending].
    split; [reflexivity|]. split; [reflexivity|]. eexists.
    rewrite files_reindexed, filter_app, filter_has_path_deleted. cbn [filter app].
    rewrite has_path_refl. reflexivity.
  - left. cbn [fst snd]. split; [|now exists e].
    unfold rollback. rewrite (transaction_raise_committed _ _ _ _ _ _ _ _ Ht).
    cbn [committed]. now apply connection_eta.
Qed.

Lemma index_file_all_or_nothing_witness :
  (fst (index_file failing_env (get_connection invoice_db) new_world fileA jan_2 jun_1)
   = get_connection invoice_db
   /\ exists e, w_log (snd (index_file failing_env (get_connection invoice_db) new_world
                                       fileA jan_2 jun_1))
                = (w_log new_world ++ [error_line (now failing_env (w_clock new_world)) fileA e])%list)
  \/ (pending (fst (index_file failing_env (get_connection invoice_db) new_world
                               fileA jan_2 jun_1)) = None
      /\ w_log (snd (index_file failing_env (get_connection invoice_db) new_world
                                fileA jan_2 jun_1)) = w_log new_world
      /\ exists file_id,
          filter (has_path fileA)
                 (files (committed (fst (index_file failing_env (get_connection invoice_db)
                                                    new_world fileA jan_2 jun_1))))
          = [mk_file file_id fileA (SqlText (isoformat jan_2)) (SqlText (isoformat jun_1))]).
Proof.
  apply (index_file_all_or_nothing failing_env (get_connection invoice_db) new_world
           fileA jan_2 jun_1).
  reflexivity.
Defined.

Lemma NoDup_map_filter {A B : Type} (g : A -> B) (keep : A -> bool) (l : list A) :
  NoDup (map g l) -> NoDup (map g (filter keep l)).
Proof.
  induction l as [|x l IH]; simpl; intros H; [constructor|].
  inversion H as [|? ? Hx Hl]; subst. destruct (keep x); simpl; [|now apply IH].
  constructor; [|now apply IH]. intros Hin. apply Hx.
  apply in_map_iff in Hin as (y & Hy & Hin). apply filter_In in Hin as [Hin _].
  rewrite <- Hy. now apply in_map.
Qed.

Lemma NoDup_snoc {A : Type} (l : list A) (x : A) :
  NoDup l -> ~ In x l -> NoDup (l ++ [x])%list.
Proof.
  intros Hl Hx. apply NoDup_app; [exact Hl | repeat constructor; intros [] |].
  intros y Hy [<- | []]. contradiction.
Qed.

Lemma next_rowid_fresh (ids : list Z) : ~ In (next_rowid ids) ids.
Proof. intros H. apply next_rowid_gt in H. lia. Qed.

Lemma executemany_ids (vs : list content_value) (d : db) :
  NoDup (map c_id (content_index d)) ->
  NoDup (map c_id (content_index (executemany vs d))).
Proof.
  unfold executemany. revert d. induction vs as [|v vs IH]; intros d H; simpl; [exact H|].
  apply IH. simpl. rewrite map_app. simpl.
  apply NoDup_snoc; [exact H | apply next_rowid_fresh].
Qed.

Lemma keys_ok_reindexed (p : string) (mt ct : datetime) (wb : workbook) (d : db) :
  keys_ok d -> keys_ok (reindexed p mt ct wb d).
Proof.
  intros (Hid & Hpath & Hc). unfold keys_ok. rewrite files_reindexed, !map_app. simpl.
  split; [|split].
  - apply NoDup_snoc; [now apply NoDup_map_filter | apply next_rowid_fresh].
  - apply NoDup_snoc; [now apply NoDup_map_filter|].
    intros Hin. apply in_map_iff in Hin as (f & Hf & Hin).
    apply filter_In in Hin as [_ Hn]. apply negb_true_iff in Hn.
    unfold has_path in Hn. rewrite Hf, String.eqb_refl in Hn. discriminate.
  - unfold reindexed. now apply executemany_ids.
Qed.

(** [index_file] keeps the keys of the schema: ids stay distinct in both
    tables and no path gets a second row in [files], whether it commits or
    fails. *)
Theorem index_file_keeps_keys (E : env) (conn : connection) (w : world) (p : string)
        (mt ct : datetime) :
  pending conn = None -> keys_ok (committed conn) ->
  keys_ok (committed (fst (index_file E conn w p mt ct))).
Proof.
  intros Hp Hk. destruct (index_file_cases E conn w p mt ct Hp) as [-> | (wb & _ & _ & ->)];
    [exact Hk | now apply keys_ok_reindexed].
Qed.

Lemma index_file_keeps_keys_witness :
  keys_ok (committed (fst (index_file changed_env (get_connection two_files_db) new_world
                                      fileA jan_2 jun_1))).
Proof.
  apply (index_file_keeps_keys changed_env (get_connection two_files_db) new_world
           fileA jan_2 jun_1).
  - reflexivity.
  - unfold keys_ok. simpl. repeat split; repeat constructor; simpl; intuition discriminate.
Defined.

Lemma index_file_files_other (E : env) (conn : connection) (w : world) (p q : string)
      (mt ct : datetime) :
  pending conn = None -> q <> p ->
  filter (has_path q) (files (committed (fst (index_file E conn w p mt ct))))
  = filter (has_path q) (files (committed conn)).
Proof.
  intros Hp Hne.
  destruct (index_file_cases E conn w p mt ct Hp) as [-> | (wb & _ & _ & ->)];
    [reflexivity|].
  cbn [committed]. rewrite files_reindexed.
  rewrite filter_has_path_other; [reflexivity | exact Hne | reflexivity].
Qed.

Lemma index_file_owned_other (E : env) (conn : connection) (w : world) (p q : string)
      (mt ct : datetime) :
  pending conn = None -> q <> p ->
  owned (committed (fst (index_file E conn w p mt ct))) q = owned (committed conn) q.
Proof.
  intros Hp Hne.
  destruct (index_file_cases E conn w p mt ct Hp) as [-> | (wb & _ & _ & ->)];
    [reflexivity | now apply owned_reindexed_other].
Qed.

(** Indexing one path, successfully or not, leaves every other path its row
    in [files] and the entries it owns. *)
Theorem index_file_other_paths (E : env) (conn : connection) (w : world) (p q : string)
        (mt ct : datetime) :
  pending conn = None -> q <> p ->
  filter (has_path q) (files (committed (fst (index_file E conn w p mt ct))))
  = filter (has_path q) (files (committed conn))
  /\ owned (committed (fst (index_file E conn w p mt ct))) q = owned (committed conn) q.
Proof.
  intros Hp Hne. split; [now apply index_file_files_other | now apply index_file_owned_other].
Qed.

Lemma index_file_other_paths_witness :
  filter (has_path fileB)
         (files (committed (fst (index_file changed_env (get_connection two_files_db)
                                            new_world fileA jan_2 jun_1))))
  = filter (has_path fileB) (files (committed (get_connection two_files_db)))
  /\ owned (committed (fst (index_file changed_env (get_connection two_files_db)
                                       new_world fileA jan_2 jun_1))) fileB
     = owned (committed (get_connection two_files_db)) fileB.
Proof.
  apply (index_file_other_paths changed_env (get_connection two_files_db) new_world
           fileA fileB jan_2 jun_1).
  - reflexivity.
  - discriminate.
Defined.

Lemma owned_reindexed_above (p : string) (mt ct : datetime) (wb : workbook) (d : db) :
  references_ok d ->
  (forall f, In f (files d) ->
             (f_id f < next_rowid (map f_id (filter (fun f0 => negb (has_path p f0))
                                                    (files d))))%Z) ->
  owned (reindexed p mt ct wb d) p
  = map entry_of_value
        (collect_content_values
           (next_rowid (map f_id (filter (fun f0 => negb (has_path p f0)) (files d)))) wb).
Proof.
  intros Href Hbelow. unfold owned. rewrite files_reindexed.
  destruct (content_reindexed p mt ct wb d) as (rows & -> & Hrows).
  rewrite flat_map_app.
  set (kept := filter (fun f0 => negb (has_path p f0)) (files d)) in *.
  set (fid := next_rowid (map f_id kept)) in *.
  set (row := mk_file fid p (adapt_datetime mt) (adapt_datetime ct)).
  assert (Hjoin : forall ci,
             filter (fun f => has_path p f && (c_file_id ci =? f_id f)%Z) (kept ++ [row])%list
             = if (c_file_id ci =? fid)%Z then [row] else []).
  { intros ci. rewrite filter_app. rewrite (joined_none p (c_file_id ci) kept).
    - cbn [filter app]. unfold row at 1. rewrite has_path_refl. cbn [andb f_id row].
      now destruct (c_file_id ci =? fid)%Z.
    - intros f Hf Hq. apply filter_In in Hf as [_ Hn]. rewrite Hq in Hn. discriminate. }
  rewrite (flat_map_nil _ (content_index d)).
  - cbn [app]. rewrite (flat_map_single _ entry_of_row rows).
    + rewrite <- Hrows, map_map. apply map_ext. intros ci. reflexivity.
    + intros ci Hci. rewrite Hjoin, (new_rows_file_id fid wb rows Hrows ci Hci), Z.eqb_refl.
      reflexivity.
  - intros ci Hci. rewrite Hjoin. destruct (Href ci Hci) as (f & Hf & Hid).
    pose proof (Hbelow f Hf) as Hlt.
    destruct (Z.eqb_spec (c_file_id ci) fid); [lia | reflexivity].
Qed.

(** When the path's row in [files] is not the one with the largest id (and
    every [file_id] of the store names a row of [files]), a successful
    re-index gives the new row an id never used before: the path then owns
    exactly the entries of the new extraction, and the rows of the earlier
    version, still in [content_index], belong to no file. *)
Theorem index_file_reindex_not_last (E : env) (conn : connection) (w : world) (p : string)
        (mt ct : datetime) (wb : workbook) (g : file_row) :
  load_workbook E p = Ok wb -> (forall s, sql_fault E p s = None) ->
  pending conn = None -> references_ok (committed conn) ->
  In g (files (committed conn)) -> has_path p g = false ->
  (forall f, In f (files (committed conn)) -> has_path p f = true -> (f_id f < f_id g)%Z) ->
  (exists file_id,
      owned (committed (fst (index_file E conn w p mt ct))) p
      = map entry_of_value (collect_content_values file_id wb))
  /\ (forall ci f, In ci (content_index (committed conn)) ->
                   In f (files (committed (fst (index_file E conn w p mt ct)))) ->
                   has_path p f = true -> c_file_id ci <> f_id f).
Proof.
  intros Hl Hf Hp Href Hg Hgp Hlast.
  rewrite (index_file_success E conn w p mt ct wb Hl Hf Hp). cbn [fst committed].
  assert (Hbelow : forall f, In f (files (committed conn)) ->
             (f_id f < next_rowid (map f_id (filter (fun f0 => negb (has_path p f0))
                                                    (files (committed conn)))))%Z).
  { intros f Hin. destruct (has_path p f) eqn:Hpf.
    - pose proof (Hlast f Hin Hpf). pose proof (kept_id_lt p _ g Hg Hgp). lia.
    - now apply kept_id_lt. }
  split.
  - eexists. now apply owned_reindexed_above.
  - intros ci f Hci Hin Hpf Heq. rewrite files_reindexed in Hin.
    apply in_app_or in Hin as [Hin | [<- | []]].
    + apply filter_In in Hin as [_ Hn]. rewrite Hpf in Hn. discriminate.
    + cbn [f_id] in Heq. destruct (Href ci Hci) as (f' & Hf' & Hid).
      pose proof (Hbelow f' Hf'). lia.
Qed.

Lemma index_file_reindex_not_last_witness :
  (exists file_id,
      owned (committed (fst (index_file changed_env (get_connection two_files_db) new_world
                                        fileA jan_2 jun_1))) fileA
      = map entry_of_value (collect_content_values file_id [sheet1 (PyStr "Invoice 456")]))
  /\ (forall ci f, In ci (content_index (committed (get_connection two_files_db))) ->
                   In f (files (committed (fst (index_file changed_env
                                                  (get_connection two_files_db) new_world
                                                  fileA jan_2 jun_1)))) ->
                   has_path fileA f = true -> c_file_id ci <> f_id f).
Proof.
  apply (index_file_reindex_not_last changed_env (get_connection two_files_db) new_world
           fileA jan_2 jun_1 [sheet1 (PyStr "Invoice 456")]
           (mk_file 2 fileB (adapt_datetime jan_1) (adapt_datetime jun_1))).
  - reflexivity.
  - intros s. reflexivity.
  - reflexivity.
  - intros ci [<- | [<- | []]].
    + exists fileA_row. split; [simpl; now left | reflexivity].
    + eexists. split; [simpl; right; left; reflexivity | reflexivity].
  - simpl. right. now left.
  - reflexivity.
  - intros f [<- | [<- | []]] H; [reflexivity | discriminate H].
Defined.

(** ** Queries *)

Lemma like_any (t : string) : like "%%" t = true.
Proof. apply (like_contains_literal "" t eq_refl). now exists "", t. Qed.

Lemma like_percent_query (t : string) : like "%%%" t = true.
Proof. rewrite like_percent. apply suffix_matches_here, like_any. Qed.

Lemma like_underscore_query (t : string) : like "%_%" t = true <-> t <> "".
Proof.
  rewrite like_percent. split.
  - intros H. apply suffix_matches_some in H as (pre & post & -> & H).
    destruct post as [|c post]; [discriminate H|]. destruct pre; discriminate.
  - intros Hne. destruct t as [|c t]; [contradiction|].
    apply suffix_matches_here. rewrite like_char by reflexivity.
    change (Ascii.eqb "_" "_") with true. cbv iota. apply like_only_percent.
Qed.

(** A query whose pattern is within the limit is evaluated row by row. *)
Lemma search_within (d : db) (q : string) :
  within_limit q = true ->
  search d q
  = flat_map (fun ci =>
                if sql_like ("%" ++ q ++ "%") (c_content ci)
                then map (fun f => hit_of f ci)
                         (filter (fun f => (c_file_id ci =? f_id f)%Z) (files d))
                else [])
             (content_index d).
Proof.
  unfold within_limit, search. intros H. apply negb_true_iff in H. now rewrite H.
Qed.

Lemma sql_like_any (t : string) : sql_like ("%" ++ "" ++ "%") t = true.
Proof. apply like_any. Qed.

(** The LIKE metacharacters in a query are not searched for as text: the
    query [%] returns what the empty query returns, every stored entry with
    a file, and the query [_] returns such an entry exactly when its content,
    read up to its first NUL as SQLite reads it, is not empty. *)
Theorem search_wildcard_queries (d : db) (f : file_row) (ci : content_row) :
  In ci (content_index d) -> In f (files d) -> c_file_id ci = f_id f ->
  search d "%" = search d ""
  /\ In (hit_of f ci) (search d "%")
  /\ (In (hit_of f ci) (search d "_") <-> c_string (c_content ci) <> "").
Proof.
  intros Hci Hf Hid. split; [|split].
  - rewrite (search_within d "%" eq_refl), (search_within d "" eq_refl).
    apply flat_map_ext. intros x. rewrite sql_like_any.
    unfold sql_like. change (c_string ("%" ++ "%" ++ "%")) with "%%%".
    now rewrite like_percent_query.
  - apply (search_returns_iff_like d "%" f ci Hci Hf Hid).
    split; [reflexivity | apply like_percent_query].
  - rewrite (search_returns_iff_like d "_" f ci Hci Hf Hid).
    unfold sql_like. change (c_string ("%" ++ "_" ++ "%")) with "%_%".
    rewrite like_underscore_query. split; [now intros [_ H] | now split].
Qed.

Lemma search_wildcard_queries_witness :
  search invoice_db "%" = search invoice_db ""
  /\ In (hit_of fileA_row invoice_row) (search invoice_db "%")
  /\ (In (hit_of fileA_row invoice_row) (search invoice_db "_")
      <-> c_string (c_content invoice_row) <> "").
Proof.
  apply (search_wildcard_queries invoice_db fileA_row invoice_row).
  - simpl. now left.
  - simpl. now left.
  - reflexivity.
Defined.

(** A row of [content_index] whose [file_id] names no row of [files] is
    invisible to every query: the hits are those of the store without it. *)
Theorem search_skips_orphans (fs : list file_row) (before after : list content_row)
        (ci : content_row) (q : string) :
  (forall f, In f fs -> f_id f <> c_file_id ci) ->
  search (mk_db fs (before ++ ci :: after)%list) q = search (mk_db fs (before ++ after)%list) q.
Proof.
  intros Horphan. unfold search.
  destruct (like_pattern_limit <? byte_length ("%" ++ q ++ "%"))%N; [reflexivity|].
  cbn [content_index files].
  rewrite !flat_map_app. f_equal. cbn [flat_map].
  replace (filter (fun f => (c_file_id ci =? f_id f)%Z) fs) with (@nil file_row).
  - cbn [map app]. destruct (sql_like ("%" ++ q ++ "%") (c_content ci)); reflexivity.
  - symmetry. induction fs as [|f fs IH]; [reflexivity|]. cbn [filter].
    destruct (Z.eqb_spec (c_file_id ci) (f_id f)) as [Heq|_].
    + exfalso. apply (Horphan f (or_introl eq_refl)). now symmetry.
    + apply IH. intros g Hg. apply Horphan. now right.
Qed.

Lemma search_skips_orphans_witness :
  search (mk_db [fileA_row] ([invoice_row] ++ mk_content 2 9 "Sheet1" "A1" "Invoice 000" :: [])%list)
         "Invoice"
  = search (mk_db [fileA_row] ([invoice_row] ++ [])%list) "Invoice".
Proof.
  apply (search_skips_orphans [fileA_row] [invoice_row] []
           (mk_content 2 9 "Sheet1" "A1" "Invoice 000") "Invoice").
  intros f [<- | []]. discriminate.
Defined.

Lemma joined_unique (fs : list file_row) (id : Z) :
  NoDup (map f_id fs) -> (exists f, In f fs /\ f_id f = id) ->
  exists f, filter (fun f0 => (id =? f_id f0)%Z) fs = [f].
Proof.
  induction fs as [|x fs IH]; intros Hnd (f & Hin & Hid); [contradiction|].
  simpl in Hnd. inversion Hnd as [|? ? Hx Hfs]; subst. cbn [filter].
  destruct (Z.eqb_spec (f_id f) (f_id x)) as [Heq|Hne].
  - exists x. f_equal.
    assert (Hnone : forall g, In g fs -> (f_id f =? f_id g)%Z = false).
    { intros g Hg. apply Z.eqb_neq. intros Hfg. apply Hx. rewrite <- Heq, Hfg.
      now apply in_map. }
    clear -Hnone. induction fs as [|g fs IHf]; [reflexivity|]. cbn [filter].
    rewrite (Hnone g (or_introl eq_refl)). apply IHf. intros h Hh. apply Hnone. now right.
  - destruct Hin as [-> | Hin]; [contradiction|].
    apply (IH Hfs). now exists f.
Qed.

(** With distinct ids in [files] and every [file_id] naming a row of
    [files], the empty query lists every row of [content_index] exactly
    once, in table order. *)
Theorem search_all_lists_every_row (d : db) :
  NoDup (map f_id (files d)) -> references_ok d ->
  map (fun h : hit => (snd (fst (fst h)), snd (fst h), snd h)) (search d "")
  = map entry_of_row (content_index d).
Proof.
  intros Hnd Href. rewrite (search_within d "" eq_refl). unfold references_ok in *.
  revert Href. generalize (content_index d) as l.
  induction l as [|ci l IH]; intros Href; [reflexivity|].
  cbn [flat_map map]. rewrite map_app, IH by (intros x Hx; apply Href; now right).
  rewrite sql_like_any.
  destruct (joined_unique (files d) (c_file_id ci) Hnd (Href ci (or_introl eq_refl)))
    as (f & ->).
  reflexivity.
Qed.

Lemma search_all_lists_every_row_witness :
  map (fun h : hit => (snd (fst (fst h)), snd (fst h), snd h)) (search two_files_db "")
  = map entry_of_row (content_index two_files_db).
Proof.
  apply (search_all_lists_every_row two_files_db).
  - simpl. repeat constructor; simpl; intuition discriminate.
  - intros ci [<- | [<- | []]].
    + exists fileA_row. split; [simpl; now left | reflexivity].
    + eexists. split; [simpl; right; left; reflexivity | reflexivity].
Defined.

(** ** A whole run *)

Lemma update_index_fst (E : env) (d : db) (w : world) (folder_path : string) :
  fst (update_index E d w folder_path)
  = committed (fst (process_files E (Z.of_nat (length (excel_files E folder_path)))
                                  (now E (w_clock w)) 0 (excel_files E folder_path)
                                  (get_connection d, tick w))).
Proof. unfold update_index. now destruct (process_files _ _ _ _ _ _). Qed.

Lemma update_index_snd (E : env) (d : db) (w : world) (folder_path : string) :
  snd (update_index E d w folder_path)
  = report 100 done_label
           (snd (process_files E (Z.of_nat (length (excel_files E folder_path)))
                               (now E (w_clock w)) 0 (excel_files E folder_path)
                               (get_connection d, tick w))).
Proof. unfold update_index. now destruct (process_files _ _ _ _ _ _). Qed.

Lemma needs_indexing_no_record (E : env) (d : db) (p : string) :
  needs_indexing E d p = true -> has_record p d = false.
Proof.
  unfold needs_indexing. destruct (getmtime E p) as [t|e]; [|discriminate].
  destruct (has_record p d) eqn:Hr; [|reflexivity].
  destruct (needs_update_record (get_connection d) p t Hr) as [e ->]. discriminate.
Qed.

(** What [index_file] keeps, when called as the loop calls it (on a
    connection without an open transaction, for a file of the list whose
    modification time was read and which has no row in [files]), the loop
    keeps. *)
Lemma process_files_preserves (E : env) (total : Z) (ct : datetime)
      (P : connection -> Prop) (paths : list string) :
  (forall conn w p t, In p paths -> getmtime E p = Ok t -> pending conn = None ->
                      has_record p (committed conn) = false -> P conn ->
                      P (fst (index_file E conn w p t ct))) ->
  forall i conn w, pending conn = None -> P conn ->
                   P (fst (process_files E total ct i paths (conn, w))).
Proof.
  induction paths as [|p paths IH]; intros Hstep i conn w Hp HP; cbn [process_files].
  - exact HP.
  - pose proof (process_file_pending E total ct i p conn w Hp) as Hp1.
    assert (HP1 : P (fst (process_file E total ct i p (conn, w)))).
    { rewrite (process_file_spec E total ct i p conn w Hp).
      destruct (needs_indexing E (committed conn) p) eqn:Hn; [|exact HP].
      apply needs_indexing_no_record in Hn.
      destruct (getmtime E p) as [t|e] eqn:Hg; [|exact HP].
      apply Hstep; [now left | exact Hg | exact Hp | exact Hn | exact HP]. }
    destruct (process_file E total ct i p (conn, w)) as [conn1 w1]. cbn [fst] in *.
    apply IH; [|exact Hp1 | exact HP1].
    intros c w' q t Hq. apply Hstep. now right.
Qed.

Lemma process_file_recorded (E : env) (total : Z) (ct : datetime) (i : Z) (p : string)
      (conn : connection) (w : world) :
  pending conn = None -> has_record p (committed conn) = true ->
  process_file E total ct i p (conn, w) = (conn, w).
Proof.
  intros Hp Hr. unfold process_file. destruct (getmtime E p) as [t|e]; [|reflexivity].
  rewrite <- (view_committed conn Hp) in Hr.
  destruct (needs_update_record conn p t Hr) as [e ->]. reflexivity.
Qed.

(** A run over a folder whose candidates all have a row in [files] does
    nothing but report completion: no file is opened or indexed again,
    whatever its modification time is now. *)
Theorem update_index_all_recorded (E : env) (d : db) (w : world) (folder_path : string) :
  (forall p, In p (excel_files E folder_path) -> has_record p d = true) ->
  update_index E d w folder_path = (d, report 100 done_label (tick w)).
Proof.
  intros Hall. unfold update_index.
  assert (H : forall paths i,
             (forall p, In p paths -> has_record p d = true) ->
             process_files E (Z.of_nat (length (excel_files E folder_path)))
                           (now E (w_clock w)) i paths (get_connection d, tick w)
             = (get_connection d, tick w)).
  { induction paths as [|p paths IH]; intros i Hrec; cbn [process_files]; [reflexivity|].
    rewrite process_file_recorded; [|reflexivity | apply Hrec; now left].
    apply IH. intros q Hq. apply Hrec. now right. }
  now rewrite (H _ 0%Z Hall).
Qed.

Lemma update_index_all_recorded_witness :
  update_index changed_env recorded_db new_world "/data"
  = (recorded_db, report 100 done_label (tick new_world)).
Proof.
  apply (update_index_all_recorded changed_env recorded_db new_world "/data").
  intros p Hp. vm_compute in Hp. destruct Hp as [<- | [<- | []]]; reflexivity.
Defined.

(** A run never touches a path that is not among its candidates (a file
    that was deleted or renamed on disk, say): its row in [files] and the
    entries it owns are after the run what they were before. *)
Theorem update_index_other_paths (E : env) (d : db) (w : world) (folder_path q : string) :
  ~ In q (excel_files E folder_path) ->
  filter (has_path q) (files (fst (update_index E d w folder_path)))
  = filter (has_path q) (files d)
  /\ owned (fst (update_index E d w folder_path)) q = owned d q.
Proof.
  intros Hq. rewrite update_index_fst.
  apply (process_files_preserves E _ _
           (fun conn => filter (has_path q) (files (committed conn))
                        = filter (has_path q) (files d)
                        /\ owned (committed conn) q = owned d q)).
  - intros conn w' p t Hin _ Hp _ [Hf Ho].
    assert (Hne : q <> p) by (intros ->; contradiction).
    rewrite (index_file_files_other E conn w' p q t _ Hp Hne).
    rewrite (index_file_owned_other E conn w' p q t _ Hp Hne). now split.
  - reflexivity.
  - now split.
Qed.

(** The store holds a file that is gone from disk; the run indexes [fileA]
    and leaves the row and the entry of the other file. *)
Lemma update_index_other_paths_witness :
  has_record fileA (fst (update_index invoice_env gone_db new_world "/data")) = true
  /\ owned gone_db "/old/gone.xlsx" = [("Sheet1", "A1", "kept")]
  /\ filter (has_path "/old/gone.xlsx")
            (files (fst (update_index invoice_env gone_db new_world "/data")))
     = filter (has_path "/old/gone.xlsx") (files gone_db)
  /\ owned (fst (update_index invoice_env gone_db new_world "/data")) "/old/gone.xlsx"
     = owned gone_db "/old/gone.xlsx".
Proof.
  split; [reflexivity|]. split; [reflexivity|].
  apply (update_index_other_paths invoice_env gone_db new_world "/data" "/old/gone.xlsx").
  vm_compute. intros [H | [H | []]]; discriminate.
Defined.

Lemma index_file_keeps_record (E : env) (conn : connection) (w : world) (p q : string)
      (mt ct : datetime) :
  pending conn = None -> has_record q (committed conn) = true ->
  has_record q (committed (fst (index_file E conn w p mt ct))) = true.
Proof.
  intros Hp Hr.
  destruct (index_file_cases E conn w p mt ct Hp) as [-> | (wb & _ & _ & ->)]; [exact Hr|].
  cbn [committed]. destruct (string_dec q p) as [->|Hne].
  - apply has_record_reindexed_same.
  - rewrite <- Hr. apply has_record_select. now apply select_reindexed_other.
Qed.

(** A run never deletes: the rows of [content_index] before the run are
    still there after it, at the front and in order, and every path that
    had a row in [files] still has one. *)
Theorem update_index_never_deletes (E : env) (d : db) (w : world) (folder_path : string) :
  (exists rows, content_index (fst (update_index E d w folder_path))
                = (content_index d ++ rows)%list)
  /\ (forall q, has_record q d = true ->
                has_record q (fst (update_index E d w folder_path)) = true).
Proof.
  rewrite update_index_fst.
  apply (process_files_preserves E _ _
           (fun conn => (exists rows, content_index (committed conn)
                                      = (content_index d ++ rows)%list)
                        /\ (forall q, has_record q d = true ->
                                      has_record q (committed conn) = true))).
  - intros conn w' p t _ _ Hp _ [[rows Hrows] Hrec]. split.
    + destruct (index_file_keeps_content E conn w' p t (now E (w_clock w)) Hp) as [more ->].
      exists (rows ++ more)%list. now rewrite Hrows, app_assoc.
    + intros q Hq. apply index_file_keeps_record; [exact Hp | now apply Hrec].
  - reflexivity.
  - split; [exists []; now rewrite app_nil_r | auto].
Qed.

(** A run keeps the keys of the schema: if ids are distinct in both tables
    and paths are distinct in [files] before, they are after. *)
Theorem update_index_keeps_keys (E : env) (d : db) (w : world) (folder_path : string) :
  keys_ok d -> keys_ok (fst (update_index E d w folder_path)).
Proof.
  intros Hk. rewrite update_index_fst.
  apply (process_files_preserves E _ _ (fun conn => keys_ok (committed conn))).
  - intros conn w' p t _ _ Hp _ Hc.
    destruct (index_file_cases E conn w' p t (now E (w_clock w)) Hp)
      as [-> | (wb & _ & _ & ->)]; [exact Hc | now apply keys_ok_reindexed].
  - reflexivity.
  - exact Hk.
Qed.

(** A run that writes: [fileA] is not in the store yet and is indexed next
    to the file the store holds. *)
Lemma update_index_keeps_keys_witness :
  files (fst (update_index invoice_env gone_db new_world "/data"))
  = (files gone_db ++ [mk_file 2 fileA (adapt_datetime jan_2) (adapt_datetime jun_1)])%list
  /\ content_index (fst (update_index invoice_env gone_db new_world "/data"))
     = (content_index gone_db ++ [mk_content 2 2 "Sheet1" "A1" "Invoice 123"])%list
  /\ keys_ok (fst (update_index invoice_env gone_db new_world "/data")).
Proof.
  split; [reflexivity|]. split; [reflexivity|].
  apply (update_index_keeps_keys invoice_env gone_db new_world "/data").
  unfold keys_ok. simpl. repeat split; repeat constructor; simpl; intuition discriminate.
Defined.

(** A run never changes what is stored for a file that already has a row
    in [files], candidate or not: its row and the entries it owns stay as
    they were, so a file that changed on disk keeps its old entries. *)
Theorem update_index_keeps_indexed_files (E : env) (d : db) (w : world)
        (folder_path q : string) :
  has_record q d = true ->
  filter (has_path q) (files (fst (update_index E d w folder_path)))
  = filter (has_path q) (files d)
  /\ owned (fst (update_index E d w folder_path)) q = owned d q.
Proof.
  intros Hq. rewrite update_index_fst.
  assert (H : has_record q (committed (fst (process_files E
                 (Z.of_nat (length (excel_files E folder_path))) (now E (w_clock w)) 0
                 (excel_files E folder_path) (get_connection d, tick w)))) = true
              /\ filter (has_path q) (files (committed (fst (process_files E
                   (Z.of_nat (length (excel_files E folder_path))) (now E (w_clock w)) 0
                   (excel_files E folder_path) (get_connection d, tick w)))))
                 = filter (has_path q) (files d)
              /\ owned (committed (fst (process_files E
                   (Z.of_nat (length (excel_files E folder_path))) (now E (w_clock w)) 0
                   (excel_files E folder_path) (get_connection d, tick w)))) q
                 = owned d q).
  { apply (process_files_preserves E _ _
             (fun conn => has_record q (committed conn) = true
                          /\ filter (has_path q) (files (committed conn))
                             = filter (has_path q) (files d)
                          /\ owned (committed conn) q = owned d q)).
    - intros conn w' p t _ _ Hp Hfresh (Hr & Hf & Ho).
      assert (Hne : q <> p) by (intros ->; congruence).
      rewrite (index_file_files_other E conn w' p q t _ Hp Hne).
      rewrite (index_file_owned_other E conn w' p q t _ Hp Hne).
      split; [now apply index_file_keeps_record | now split].
    - reflexivity.
    - now split. }
  destruct H as (_ & Hf & Ho). now split.
Qed.

Lemma update_index_keeps_indexed_files_witness :
  filter (has_path fileA) (files (fst (update_index changed_env invoice_db new_world "/data")))
  = filter (has_path fileA) (files invoice_db)
  /\ owned (fst (update_index changed_env invoice_db new_world "/data")) fileA
     = owned invoice_db fileA.
Proof.
  apply (update_index_keeps_indexed_files changed_env invoice_db new_world "/data" fileA).
  reflexivity.
Defined.

(** A run keeps the foreign key: if every [file_id] names a row of [files]
    before, it does after; the run itself never leaves an entry without its
    file. *)
Theorem update_index_keeps_references (E : env) (d : db) (w : world) (folder_path : string) :
  references_ok d -> references_ok (fst (update_index E d w folder_path)).
Proof.
  intros Href. rewrite update_index_fst.
  apply (process_files_preserves E _ _ (fun conn => references_ok (committed conn))).
  - intros conn w' p t _ _ Hp Hfresh Hc.
    destruct (index_file_cases E conn w' p t (now E (w_clock w)) Hp)
      as [-> | (wb & _ & _ & ->)];
      [exact Hc | now apply references_ok_reindexed_fresh].
  - reflexivity.
  - exact Href.
Qed.

Lemma update_index_keeps_references_witness :
  references_ok (fst (update_index invoice_env empty_db new_world "/data")).
Proof.
  apply (update_index_keeps_references invoice_env empty_db new_world "/data").
  intros ci [].
Defined.

(** Every row of [files] after a run was there before, or was written by
    the run for one of its candidates: it then carries the file's
    modification time and, whichever file it is, the time at which the run
    started, both as ISO text. *)
Theorem update_index_stamps (E : env) (d : db) (w : world) (folder_path : string)
        (f : file_row) :
  In f (files (fst (update_index E d w folder_path))) ->
  In f (files d)
  \/ (In (f_path f) (excel_files E folder_path)
      /\ (exists t, getmtime E (f_path f) = Ok t
                    /\ f_last_modified f = SqlText (isoformat t))
      /\ f_last_indexed f = SqlText (isoformat (now E (w_clock w)))).
Proof.
  rewrite update_index_fst. revert f.
  apply (process_files_preserves E _ _
           (fun conn => forall f, In f (files (committed conn)) ->
              In f (files d)
              \/ (In (f_path f) (excel_files E folder_path)
                  /\ (exists t, getmtime E (f_path f) = Ok t
                                /\ f_last_modified f = SqlText (isoformat t))
                  /\ f_last_indexed f = SqlText (isoformat (now E (w_clock w)))))).
  - intros conn w' p t Hin Hg Hp _ HP f Hf.
    destruct (index_file_cases E conn w' p t (now E (w_clock w)) Hp)
      as [Heq | (wb & _ & _ & Heq)]; rewrite Heq in Hf; [now apply HP|].
    cbn [committed] in Hf. rewrite files_reindexed in Hf.
    apply in_app_or in Hf as [Hf | [<- | []]].
    + apply filter_In in Hf as [Hf _]. now apply HP.
    + right. cbn [f_path f_last_modified f_last_indexed]. split; [exact Hin|].
      split; [now exists t | reflexivity].
  - reflexivity.
  - intros f Hf. now left.
Qed.

Lemma update_index_stamps_witness :
  In (mk_file 1 fileA (SqlText (isoformat jan_2)) (SqlText (isoformat jun_1))) (files empty_db)
  \/ (In (f_path (mk_file 1 fileA (SqlText (isoformat jan_2)) (SqlText (isoformat jun_1))))
         (excel_files invoice_env "/data")
      /\ (exists t, getmtime invoice_env
                             (f_path (mk_file 1 fileA (SqlText (isoformat jan_2))
                                              (SqlText (isoformat jun_1)))) = Ok t
                    /\ f_last_modified (mk_file 1 fileA (SqlText (isoformat jan_2))
                                                (SqlText (isoformat jun_1)))
                       = SqlText (isoformat t))
      /\ f_last_indexed (mk_file 1 fileA (SqlText (isoformat jan_2))
                                 (SqlText (isoformat jun_1)))
         = SqlText (isoformat (now invoice_env (w_clock new_world)))).
Proof.
  apply (update_index_stamps invoice_env empty_db new_world "/data"
           (mk_file 1 fileA (SqlText (isoformat jan_2)) (SqlText (isoformat jun_1)))).
  vm_compute. left. reflexivity.
Defined.

Lemma index_file_log_cases (E : env) (conn : connection) (w : world) (p : string)
      (mt ct : datetime) :
  w_log (snd (index_file E conn w p mt ct)) = w_log w
  \/ exists e, w_log (snd (index_file E conn w p mt ct))
               = (w_log w ++ [error_line (now E (w_clock w)) p e])%list.
Proof.
  unfold index_file. destruct (load_workbook E p) as [wb|e]; [|right; now exists e].
  destruct (guarded E p SBegin _) as [c|e]; [|right; now exists e].
  destruct (transaction _ _ _ _ _ _) as [c' [u|e]]; [now left | right; now exists e].
Qed.

Lemma process_file_log_cases (E : env) (total : Z) (ct : datetime) (i : Z) (p : string)
      (st : connection * world) :
  w_log (snd (process_file E total ct i p st)) = w_log (snd st)
  \/ exists t e, w_log (snd (process_file E total ct i p st))
                 = (w_log (snd st) ++ [error_line t p e])%list.
Proof.
  destruct st as [conn w]. unfold process_file.
  destruct (getmtime E p) as [t|e]; [|now left].
  destruct (needs_update conn p t) as [[|]|e]; [|now left|now left].
  destruct (index_file_log_cases E conn (report (percent i total) (indexing_label p) w)
                                 p t ct) as [H | [e H]].
  - left. exact H.
  - right. eexists. exists e. exact H.
Qed.

Lemma process_files_log (E : env) (total : Z) (ct : datetime) (paths : list string) :
  forall i st,
    exists lines,
      w_log (snd (process_files E total ct i paths st)) = (w_log (snd st) ++ lines)%list
      /\ (forall line, In line lines -> exists p, In p paths /\ is_substring p line)
      /\ (length lines <= length paths)%nat.
Proof.
  induction paths as [|p paths IH]; intros i st; cbn [process_files].
  - exists []. rewrite app_nil_r. repeat split; [intros line [] | apply le_n].
  - destruct (IH (i + 1)%Z (process_file E total ct i p st)) as (lines & Hl & Hnames & Hlen).
    destruct (process_file_log_cases E total ct i p st) as [H | (t & e & H)].
    + exists lines. rewrite Hl, H. split; [reflexivity|]. split.
      * intros line Hin. destruct (Hnames line Hin) as (q & Hq & Hs). exists q.
        split; [now right | exact Hs].
      * simpl. lia.
    + exists (error_line t p e :: lines). rewrite Hl, H, <- app_assoc.
      split; [reflexivity|]. split.
      * intros line [<- | Hin].
        -- exists p. split; [now left | apply error_line_names_file].
        -- destruct (Hnames line Hin) as (q & Hq & Hs). exists q.
           split; [now right | exact Hs].
      * simpl. lia.
Qed.

(** A run only appends to the error log, at most one line per candidate,
    and every line it appends names a candidate of the run. *)
Theorem update_index_log_lines (E : env) (d : db) (w : world) (folder_path : string) :
  exists lines,
    w_log (snd (update_index E d w folder_path)) = (w_log w ++ lines)%list
    /\ (forall line, In line lines ->
                     exists p, In p (excel_files E folder_path) /\ is_substring p line)
    /\ (length lines <= length (excel_files E folder_path))%nat.
Proof.
  rewrite update_index_snd. cbn [report w_log].
  destruct (process_files_log E (Z.of_nat (length (excel_files E folder_path)))
              (now E (w_clock w)) (excel_files E folder_path) 0 (get_connection d, tick w))
    as (lines & Hl & Hrest).
  exists lines. split; [exact Hl | exact Hrest].
Qed.

Lemma index_file_handles_cases (E : env) (conn : connection) (w : world) (p : string)
      (mt ct : datetime) :
  sql_fault E p SBegin = None -> pending conn = None ->
  w_handles (snd (index_file E conn w p mt ct)) = w_handles w
  \/ w_handles (snd (index_file E conn w p mt ct))
     = (w_handles w ++ [Opened p; Closed p])%list.
Proof.
  intros Hb Hp. destruct (load_workbook E p) as [wb|e] eqn:Hl.
  - right. apply (index_file_closes_after_begin E conn
                    (mk_conn (committed conn) (Some (committed conn))) w p mt ct wb Hl).
    unfold guarded, begin_transaction. now rewrite Hb, Hp.
  - left. unfold index_file. now rewrite Hl.
Qed.

Lemma process_files_handles (E : env) (total : Z) (ct : datetime) (paths : list string) :
  begin_never_fails E ->
  forall i conn w,
    pending conn = None ->
    exists opened,
      w_handles (snd (process_files E total ct i paths (conn, w)))
      = (w_handles w ++ flat_map (fun p => [Opened p; Closed p]) opened)%list
      /\ incl opened paths.
Proof.
  intros Hb. induction paths as [|p paths IH]; intros i conn w Hp; cbn [process_files].
  - exists []. simpl. rewrite app_nil_r. split; [reflexivity | apply incl_refl].
  - pose proof (process_file_pending E total ct i p conn w Hp) as Hp1.
    assert (Hstep : w_handles (snd (process_file E total ct i p (conn, w))) = w_handles w
                    \/ w_handles (snd (process_file E total ct i p (conn, w)))
                       = (w_handles w ++ [Opened p; Closed p])%list).
    { rewrite (process_file_spec E total ct i p conn w Hp).
      destruct (needs_indexing E (committed conn) p); [|now left].
      destruct (getmtime E p) as [t|e]; [|now left].
      destruct (index_file_handles_cases E conn
                  (report (percent i total) (indexing_label p) w) p t ct (Hb p) Hp)
        as [H | H]; [left | right]; rewrite H; reflexivity. }
    destruct (process_file E total ct i p (conn, w)) as [conn1 w1]. cbn [fst snd] in *.
    destruct (IH (i + 1)%Z conn1 w1 Hp1) as (opened & Ho & Hincl).
    destruct Hstep as [H | H].
    + exists opened. rewrite Ho, H. split; [reflexivity | now apply incl_tl].
    + exists (p :: opened). rewrite Ho, H, <- app_assoc. split; [reflexivity|].
      intros x [<- | Hx]; [now left | right; now apply Hincl].
Qed.

(** When no [BEGIN] fails, a run closes every workbook it opens before it
    opens the next: the handle events it adds are [Opened p; Closed p]
    pairs, each for a candidate of the run. *)
Theorem update_index_closes_workbooks (E : env) (d : db) (w : world) (folder_path : string) :
  begin_never_fails E ->
  exists opened,
    w_handles (snd (update_index E d w folder_path))
    = (w_handles w ++ flat_map (fun p => [Opened p; Closed p]) opened)%list
    /\ incl opened (excel_files E folder_path).
Proof.
  intros Hb. rewrite update_index_snd. cbn [report w_handles].
  apply (process_files_handles E _ _ (excel_files E folder_path) Hb 0
           (get_connection d) (tick w) eq_refl).
Qed.

(** A first run in which the workbook of [fileA] is opened, its transaction
    fails and the workbook is closed; [fileB] does not open. *)
Lemma update_index_closes_workbooks_witness :
  w_handles (snd (update_index failing_env empty_db new_world "/data"))
  = [Opened fileA; Closed fileA]
  /\ exists opened,
      w_handles (snd (update_index failing_env empty_db new_world "/data"))
      = (w_handles new_world ++ flat_map (fun p => [Opened p; Closed p]) opened)%list
      /\ incl opened (excel_files failing_env "/data").
Proof.
  split; [reflexivity|].
  apply (update_index_closes_workbooks failing_env empty_db new_world "/data").
  intros p. reflexivity.
Defined.

(** ** Progress *)

Lemma process_file_progress_cases (E : env) (total : Z) (ct : datetime) (i : Z) (p : string)
      (st : connection * world) :
  w_progress (snd (process_file E total ct i p st)) = w_progress (snd st)
  \/ w_progress (snd (process_file E total ct i p st))
     = (w_progress (snd st) ++ [report_of total (i, p)])%list.
Proof.
  destruct st as [conn w]. unfold process_file.
  destruct (getmtime E p) as [t|e]; [|now left].
  destruct (needs_update conn p t) as [[|]|e]; [|now left|now left].
  right. now rewrite index_file_progress.
Qed.

(** The reports of the loop are those of some candidates, taken in order
    of their numbers. *)
Lemma process_files_reports (E : env) (total : Z) (ct : datetime) (paths : list string) :
  forall i st,
    exists sel,
      w_progress (snd (process_files E total ct i paths st))
      = (w_progress (snd st) ++ map (report_of total) sel)%list
      /\ Forall (fun ip => (i <= fst ip < i + Z.of_nat (length paths))%Z) sel
      /\ StronglySorted (fun a b : Z * string => (fst a < fst b)%Z) sel.
Proof.
  induction paths as [|p paths IH]; intros i st; cbn [process_files].
  - exists []. simpl. rewrite app_nil_r. repeat split; constructor.
  - destruct (IH (i + 1)%Z (process_file E total ct i p st)) as (sel & Hs & Hrange & Hsorted).
    assert (Hrange' : Forall (fun ip => (i < fst ip < i + Z.of_nat (length (p :: paths)))%Z) sel).
    { eapply Forall_impl; [|exact Hrange]. intros ip H. cbn beta in H.
      cbn beta. cbn [length]. rewrite Nat2Z.inj_succ. lia. }
    destruct (process_file_progress_cases E total ct i p st) as [H | H].
    + exists sel. rewrite Hs, H. split; [reflexivity|]. split; [|exact Hsorted].
      eapply Forall_impl; [|exact Hrange']. intros ip Hip. cbn beta in Hip. lia.
    + exists ((i, p) :: sel). rewrite Hs, H, <- app_assoc. split; [reflexivity|]. split.
      * constructor; [cbn [fst length]; rewrite Nat2Z.inj_succ; lia|].
        eapply Forall_impl; [|exact Hrange']. intros ip Hip. cbn beta in Hip. lia.
      * constructor; [exact Hsorted|].
        eapply Forall_impl; [|exact Hrange']. intros ip Hip. cbn beta in Hip.
        cbn [fst]. lia.
Qed.

Lemma percent_range (j total : Z) : (0 <= j < total)%Z -> (0 <= percent j total <= 100)%Z.
Proof.
  intros H. unfold percent. split.
  - apply Z.div_pos; lia.
  - apply Z.div_le_upper_bound; lia.
Qed.

Lemma percent_monotone (i j total : Z) :
  (0 <= total)%Z -> (i <= j)%Z -> (percent i total <= percent j total)%Z.
Proof.
  intros Ht Hij. unfold percent. destruct (Z.eq_dec total 0) as [->|Hne].
  - now rewrite !Z.div_0_r.
  - apply Z.div_le_mono; lia.
Qed.

Lemma StronglySorted_map {A B : Type} (R : A -> A -> Prop) (R' : B -> B -> Prop)
      (g : A -> B) (l : list A) :
  (forall a b, R a b -> R' (g a) (g b)) -> StronglySorted R l -> StronglySorted R' (map g l).
Proof.
  intros Hg H. induction H as [|a l Hl IH Ha]; simpl; constructor; [exact IH|].
  apply Forall_map. eapply Forall_impl; [|exact Ha]. intros b. apply Hg.
Qed.

(** The percentages a run reports never go backwards and stay between 0
    and 100; the last report is 100 with the completion label. *)
Theorem update_index_percent_monotone (E : env) (d : db) (w : world) (folder_path : string) :
  exists reports,
    w_progress (snd (update_index E d w folder_path))
    = (w_progress w ++ reports ++ [(100%Z, "索引完成")])%list
    /\ Forall (fun r => (0 <= fst r <= 100)%Z) reports
    /\ StronglySorted (fun a b : Z * string => (fst a <= fst b)%Z) reports.
Proof.
  rewrite update_index_snd. cbn [report w_progress].
  destruct (process_files_reports E (Z.of_nat (length (excel_files E folder_path)))
              (now E (w_clock w)) (excel_files E folder_path) 0 (get_connection d, tick w))
    as (sel & Hs & Hrange & Hsorted).
  exists (map (report_of (Z.of_nat (length (excel_files E folder_path)))) sel).
  rewrite Hs, <- app_assoc. cbn [snd tick w_progress]. split; [reflexivity|]. split.
  - apply Forall_map. eapply Forall_impl; [|exact Hrange]. intros ip Hip.
    cbn beta in Hip. cbn [report_of fst]. apply percent_range. lia.
  - apply (StronglySorted_map (fun a b : Z * string => (fst a < fst b)%Z)); [|exact Hsorted].
    intros a b Hab. cbn [report_of fst]. apply percent_monotone; lia.
Qed.

Lemma indexing_label_not_empty (p : string) : String.eqb (indexing_label p) "" = false.
Proof. reflexivity. Qed.

Lemma update_progress_sets (dlg : dialog) (r : Z * string) :
  (0 <= fst r <= 100)%Z -> String.eqb (snd r) "" = false ->
  update_progress dlg (fst r) (Some (snd r)) = mk_dialog (fst r) (snd r).
Proof.
  intros Hr Hl. unfold update_progress, setValue. rewrite Hl.
  replace ((0 <=? fst r)%Z && (fst r <=? 100)%Z) with true; [reflexivity|].
  symmetry. apply andb_true_iff. split; apply Z.leb_le; lia.
Qed.

Lemma show_progress_last (dlg : dialog) (pre : list (Z * string)) (r : Z * string) :
  (0 <= fst r <= 100)%Z -> String.eqb (snd r) "" = false ->
  show_progress dlg (pre ++ [r])%list = mk_dialog (fst r) (snd r).
Proof.
  intros Hr Hl. unfold show_progress. rewrite fold_left_app. cbn [fold_left].
  now apply update_progress_sets.
Qed.

(** Fed with the reports of a run, the indexing dialog shows after each
    report that report's percentage and label (none is dropped as out of
    the bar's range or as an empty label), and at the end 100 and the
    completion label. *)
Theorem dialog_follows_run (E : env) (d : db) (w : world) (folder_path : string) :
  exists reports,
    w_progress (snd (update_index E d w folder_path)) = (w_progress w ++ reports)%list
    /\ (forall dlg pre r post,
           reports = (pre ++ r :: post)%list ->
           show_progress dlg (pre ++ [r])%list = mk_dialog (fst r) (snd r))
    /\ (forall dlg, show_progress dlg reports = mk_dialog 100 "索引完成").
Proof.
  rewrite update_index_snd. cbn [report w_progress].
  destruct (process_files_reports E (Z.of_nat (length (excel_files E folder_path)))
              (now E (w_clock w)) (excel_files E folder_path) 0 (get_connection d, tick w))
    as (sel & Hs & Hrange & _).
  set (total := Z.of_nat (length (excel_files E folder_path))) in *.
  exists (map (report_of total) sel ++ [(100%Z, done_label)])%list.
  rewrite Hs, <- app_assoc. cbn [snd tick w_progress]. split; [reflexivity|].
  assert (Hok : Forall (fun r : Z * string =>
                          (0 <= fst r <= 100)%Z /\ String.eqb (snd r) "" = false)
                       (map (report_of total) sel ++ [(100%Z, done_label)])%list).
  { apply Forall_app. split.
    - apply Forall_map. eapply Forall_impl; [|exact Hrange]. intros ip Hip.
      cbn beta in Hip. cbn [report_of fst snd]. split; [apply percent_range; lia|].
      apply indexing_label_not_empty.
    - repeat constructor; cbn [fst]; lia. }
  split.
  - intros dlg pre r post Heq. rewrite Heq in Hok.
    apply Forall_app in Hok as [_ Hok]. inversion Hok as [|? ? [Hr Hl] _]; subst.
    now apply show_progress_last.
  - intros dlg. now apply show_progress_last.
Qed.

(** ** [Config] *)

Lemma dict_get_set_same (d : pydict) (key value default : string) :
  dict_get (dict_set d key value) key default = value.
Proof.
  induction d as [|[k v] d IH]; simpl.
  - now rewrite String.eqb_refl.
  - destruct (String.eqb k key) eqn:Hk; simpl; rewrite Hk; [reflexivity | exact IH].
Qed.

Lemma dict_get_set_other (d : pydict) (key other value default : string) :
  other <> key ->
  dict_get (dict_set d key value) other default = dict_get d other default.
Proof.
  intros Hne. induction d as [|[k v] d IH]; simpl.
  - destruct (String.eqb_spec key other) as [->|_]; [congruence | reflexivity].
  - destruct (String.eqb_spec k key) as [->|Hk]; simpl.
    + destruct (String.eqb_spec key other) as [->|_]; [congruence | reflexivity].
    + now rewrite IH.
Qed.

(** [set_last_folder] round trip: the folder is what [get_last_folder]
    returns afterwards, both on the same [Config] and on a new one loaded
    from the saved file, and the other entries of the file are kept; a
    missing file reads as the empty folder. *)
Theorem set_last_folder_roundtrip (file : config_file) (config : pydict) (folder : string) :
  load_config file = Ok config ->
  get_last_folder (fst (set_last_folder config folder)) = folder
  /\ (exists reloaded, load_config (snd (set_last_folder config folder)) = Ok reloaded
                       /\ get_last_folder reloaded = folder
                       /\ forall key default,
                            key <> "last_folder" ->
                            dict_get reloaded key default = dict_get config key default)
  /\ (file = NoFile -> get_last_folder config = "").
Proof.
  intros Hload. unfold set_last_folder, get_last_folder, save_config. cbn [fst snd load_config].
  split; [apply dict_get_set_same|]. split.
  - eexists. split; [reflexivity|]. split; [apply dict_get_set_same|].
    intros key default Hne. now apply dict_get_set_other.
  - intros ->. simpl in Hload. injection Hload as <-. reflexivity.
Qed.

Lemma set_last_folder_roundtrip_witness :
  get_last_folder (fst (set_last_folder [("last_folder", "")] "/data")) = "/data"
  /\ (exists reloaded,
         load_config (snd (set_last_folder [("last_folder", "")] "/data")) = Ok reloaded
         /\ get_last_folder reloaded = "/data"
         /\ forall key default,
              key <> "last_folder" ->
              dict_get reloaded key default = dict_get [("last_folder", "")] key default)
  /\ (NoFile = NoFile -> get_last_folder [("last_folder", "")] = "").
Proof.
  apply (set_last_folder_roundtrip NoFile [("last_folder", "")] "/data"). reflexivity.
Defined.

(** ** [extract_file_path] *)

Lemma index_of_some (c : ascii) (s : string) (i : nat) :
  index_of c s = Some i ->
  exists pre post, s = pre ++ String c post /\ no_char c pre = true /\ String.length pre = i.
Proof.
  revert i. induction s as [|d s IH]; intros i; simpl; [discriminate|].
  destruct (Ascii.eqb_spec d c) as [->|Hne].
  - intros H. injection H as <-. now exists "", s.
  - destruct (index_of c s) as [j|]; [|discriminate].
    intros H. injection H as <-. destruct (IH j eq_refl) as (pre & post & -> & Hpre & Hlen).
    exists (String d pre), post. simpl. rewrite Hpre, Hlen.
    apply Ascii.eqb_neq in Hne. now rewrite Hne.
Qed.

Lemma index_of_found (c : ascii) (pre post : string) :
  no_char c pre = true -> index_of c (pre ++ String c post) = Some (String.length pre).
Proof.
  induction pre as [|d pre IH]; simpl; intros H.
  - now rewrite Ascii.eqb_refl.
  - apply andb_true_iff in H as [Hd Hpre]. apply negb_true_iff in Hd.
    now rewrite Hd, (IH Hpre).
Qed.

Lemma drop_app_length (pre rest : string) : drop (String.length pre) (pre ++ rest) = rest.
Proof. induction pre as [|d pre IH]; simpl; [now destruct rest | exact IH]. Qed.

Lemma take_app_length (pre rest : string) : take (String.length pre) (pre ++ rest) = pre.
Proof. induction pre as [|d pre IH]; simpl; [now destruct rest | now rewrite IH]. Qed.

Lemma drop_past (c : ascii) (pre rest : string) :
  drop (S (String.length pre)) (pre ++ String c rest) = rest.
Proof. induction pre as [|d pre IH]; simpl; [now destruct rest | exact IH]. Qed.

(** [extract_file_path] returns [p] exactly when the text reads: no quote,
    a quote, the non-empty quote-free [p], a quote, anything.  So it finds
    the first quoted piece of the text, and returns [None] when there is no
    pair of quotes or nothing between the first two. *)
Theorem extract_file_path_spec (text p : string) :
  extract_file_path text = Some p
  <-> exists pre post,
        text = pre ++ "'" ++ p ++ "'" ++ post
        /\ no_char "'" pre = true /\ no_char "'" p = true /\ p <> "".
Proof.
  unfold extract_file_path, py_find. cbn [drop]. split.
  - destruct (index_of "'" text) as [i|] eqn:Hi; [|discriminate].
    apply index_of_some in Hi as (pre & rest & -> & Hpre & <-).
    replace (Z.to_nat (Z.of_nat (0 + String.length pre) + 1)) with (S (String.length pre))
      by lia.
    rewrite drop_past.
    destruct (index_of "'" rest) as [j|] eqn:Hj.
    + apply index_of_some in Hj as (q & post & -> & Hq & <-).
      destruct ((0 <? Z.of_nat (0 + String.length pre) + 1)%Z
                && (Z.of_nat (0 + String.length pre) + 1
                    <? Z.of_nat (S (String.length pre) + String.length q))%Z) eqn:Hc;
        [|discriminate].
      apply andb_true_iff in Hc as [_ Hlt]. apply Z.ltb_lt in Hlt.
      replace (Z.to_nat (Z.of_nat (S (String.length pre) + String.length q))
               - S (String.length pre))%nat with (String.length q) by lia.
      rewrite take_app_length. intros H. injection H as <-.
      exists pre, post. repeat split; [exact Hpre | exact Hq |].
      intros ->. simpl in Hlt. lia.
    + replace ((Z.of_nat (0 + String.length pre) + 1 <? -1)%Z) with false
        by (symmetry; apply Z.ltb_ge; lia).
      rewrite andb_false_r. discriminate.
  - intros (pre & post & -> & Hpre & Hp & Hne).
    change (pre ++ "'" ++ p ++ "'" ++ post) with (pre ++ String "'" (p ++ String "'" post)).
    rewrite (index_of_found "'" pre _ Hpre).
    replace (Z.to_nat (Z.of_nat (0 + String.length pre) + 1)) with (S (String.length pre))
      by lia.
    rewrite drop_past, (index_of_found "'" p post Hp).
    assert (Hlen : (0 < String.length p)%nat).
    { destruct p; [contradiction | simpl; lia]. }
    replace ((0 <? Z.of_nat (0 + String.length pre) + 1)%Z
             && (Z.of_nat (0 + String.length pre) + 1
                 <? Z.of_nat (S (String.length pre) + String.length p))%Z) with true
      by (symmetry; apply andb_true_iff; split; apply Z.ltb_lt; lia).
    replace (Z.to_nat (Z.of_nat (S (String.length pre) + String.length p))
             - S (String.length pre))%nat with (String.length p) by lia.
    now rewrite take_app_length.
Qed.

(** ** Links in the result list *)

Section LinkRanges.

Variable width : string -> Z.
Hypothesis width_nonneg : forall s, (0 <= width s)%Z.
Hypothesis width_positive : forall c s, (0 < width (String c s))%Z.

Lemma describe_width (h : hit) : (0 < width (describe h))%Z.
Proof. unfold describe. simpl. apply width_positive. Qed.

Lemma file_positions_after (position : Z) (results : list hit) (r : Z * Z * string) :
  In r (file_positions width position results) ->
  (position <= fst (fst r) <= snd (fst r))%Z.
Proof.
  revert position. induction results as [|h rest IH]; intros position; [intros []|].
  cbn [file_positions]. intros [<- | Hin].
  - cbn [fst snd]. pose proof (width_nonneg (fst (fst (fst h)))). lia.
  - specialize (IH _ Hin). pose proof (width_nonneg (fst (fst (fst h)))).
    pose proof (describe_width h). lia.
Qed.

Lemma link_at_file_positions (position : Z) (results : list hit) (r : Z * Z * string)
      (click : Z) :
  In r (file_positions width position results) ->
  (fst (fst r) <= click <= snd (fst r))%Z ->
  link_at (file_positions width position results) click = Some (snd r).
Proof.
  revert position. induction results as [|h rest IH]; intros position; [intros []|].
  cbn [file_positions link_at]. intros [<- | Hin] Hclick.
  - cbn [fst snd] in *.
    replace ((position <=? click)%Z && (click <=? position + width (fst (fst (fst h))))%Z)
      with true; [reflexivity|].
    symmetry. apply andb_true_iff. split; apply Z.leb_le; lia.
  - pose proof (file_positions_after _ _ _ Hin) as Hafter.
    pose proof (describe_width h).
    replace ((position <=? click)%Z && (click <=? position + width (fst (fst (fst h))))%Z)
      with false; [now apply IH|].
    symmetry. apply andb_false_iff. right. apply Z.leb_gt. lia.
Qed.

Lemma file_positions_paths (position : Z) (results : list hit) (r : Z * Z * string) :
  In r (file_positions width position results) ->
  exists h, In h results /\ snd r = fst (fst (fst h)).
Proof.
  revert position. induction results as [|h rest IH]; intros position; [intros []|].
  cbn [file_positions]. intros [<- | Hin].
  - exists h. split; [now left | reflexivity].
  - destruct (IH _ Hin) as (h' & Hh & Hp). exists h'. split; [now right | exact Hp].
Qed.

(** In the result list that [start_query] builds, the link ranges do not
    overlap: a click anywhere on the path of a hit, its two ends included,
    opens the file of that hit, which is the path of a hit of [search] for
    the query; and [start_query] runs no query at all when the query or the
    folder is empty. *)
Theorem click_opens_hit (d : db) (query folder_path : string)
        (positions : list (Z * Z * string)) (start end_ : Z) (file_path : string)
        (click : Z) :
  start_query width d query folder_path = Some positions ->
  In (start, end_, file_path) positions ->
  (start <= click <= end_)%Z ->
  link_at positions click = Some file_path
  /\ (exists h, In h (search d query) /\ file_path = fst (fst (fst h)))
  /\ query <> "" /\ folder_path <> "".
Proof.
  unfold start_query. intros Hs Hin Hclick.
  destruct (String.eqb_spec query "") as [->|Hq]; [discriminate|].
  destruct (String.eqb_spec folder_path "") as [->|Hf]; [discriminate|].
  simpl in Hs. injection Hs as <-. split; [|split; [|now split]].
  - apply (link_at_file_positions 0 (search d query) (start, end_, file_path) click Hin Hclick).
  - apply (file_positions_paths 0 (search d query) (start, end_, file_path) Hin).
Qed.

End LinkRanges.

Lemma char_count_nonneg (s : string) : (0 <= char_count s)%Z.
Proof. unfold char_count. lia. Qed.

Lemma char_count_positive (c : ascii) (s : string) : (0 < char_count (String c s))%Z.
Proof. unfold char_count. cbn [String.length]. lia. Qed.

Lemma click_opens_hit_witness :
  link_at [(0%Z, 16%Z, fileA)] 16 = Some fileA
  /\ (exists h, In h (search invoice_db "voice") /\ fileA = fst (fst (fst h)))
  /\ "voice" <> "" /\ "/data" <> "".
Proof.
  apply (click_opens_hit char_count char_count_nonneg char_count_positive
           invoice_db "voice" "/data" [(0%Z, 16%Z, fileA)] 0 16 fileA 16).
  - reflexivity.
  - left. reflexivity.
  - lia.
Defined.
